(** * ng-amplify-gen2-seed: the authentication triangle

    A shallow embedding of [AuthService], [AuthGuard] and [AuthInterceptor]
    (Angular + AWS Amplify Gen2), and the properties of the specification
    that concern them.

    Conventions.
    - A [Promise<A>] is a computation [Async A]: it takes the world, settles
      to a value or to a rejection, and leaves a new world.  An [await] is a
      bind; [try/catch/finally] are combinators.  Every asynchronous method
      of the service is run to completion (the event loop serialises the
      transition operations).
    - The Amplify SDK is an oracle [Provider]: the outcome of the n-th SDK
      call is a function of n, so consecutive calls may answer differently.
    - The interceptor, whose behaviour depends on how responses and token
      refreshes interleave, is a transition system over environment events. *)

From Stdlib Require Import ZArith Lia.
From stdpp Require Import base option list gmap strings.

Local Open Scope string_scope.

(** ** JavaScript values *)

(** JS truthiness of a string: only the empty string is falsy. *)
Definition truthy (s : string) : bool := negb (String.eqb s "").

(** [a || b] on strings. *)
Definition or_else (a b : string) : string := if truthy a then a else b.

(** [String.prototype.includes]. *)
Fixpoint includes (s sub : string) : bool :=
  String.prefix sub s ||
  match s with
  | EmptyString => false
  | String _ rest => includes rest sub
  end.

(** ** Amplify data *)

Record AuthUser := mkAuthUser { userId : string; username : string }.

(** The access token: its serialisation and the [exp] claim (seconds). *)
Record JWT := mkJWT { jwt_toString : string; payload_exp : option Z }.
Record AuthTokens := mkAuthTokens { accessToken : option JWT }.
Record AuthSession := mkAuthSession { tokens : option AuthTokens }.

(** What the SDK rejects with; the service switches on [name || code]. *)
Record ProviderError := mkProviderError { err_name : string; err_code : string }.

Inductive SignInStep :=
| CONFIRM_SIGN_UP
| RESET_PASSWORD
| CONFIRM_SIGN_IN_WITH_NEW_PASSWORD_REQUIRED
| DONE
| OTHER_STEP (label : string).

Record SignInOutput := mkSignInOutput { isSignedIn : bool; nextStep : SignInStep }.
Record SignInInput := mkSignInInput { si_username : string; si_password : string }.
Record SignUpInput := mkSignUpInput { su_username : string; su_password : string }.
Record SignUpOutput := mkSignUpOutput { isSignUpComplete : bool; signUpStep : string }.

(** ** Promises *)

Inductive Settled (A : Type) :=
| Fulfilled (a : A)
| Rejected (e : ProviderError).
Arguments Fulfilled {A} a.
Arguments Rejected {A} e.

Module Amplify.
(** The SDK functions imported from [@aws-amplify/auth].  The [nat] is the
    number of SDK calls made before this one. *)
Record Provider := mkProvider {
  getCurrentUser : nat -> Settled AuthUser;
  fetchAuthSession : nat -> Settled AuthSession;
  signOut : nat -> Settled unit;
  signIn : SignInInput -> nat -> Settled SignInOutput;
  signUp : SignUpInput -> nat -> Settled SignUpOutput;
  confirmSignUp : string -> string -> nat -> Settled unit;
  resendSignUpCode : string -> nat -> Settled unit;
  resetPassword : string -> nat -> Settled unit;
  confirmResetPassword : string -> string -> string -> nat -> Settled unit
}.
End Amplify.

(** ** The Session record ([interface AuthState]) *)

Record AuthState := mkAuthState {
  isAuthenticated : bool;
  user : option AuthUser;
  isLoading : bool;
  error : option string;
  sessionExpiry : option Z      (* a [Date], in milliseconds *)
}.

(** The value both the signal and the subject are created with. *)
Definition defaultAuthState : AuthState :=
  {| isAuthenticated := false; user := None; isLoading := false;
     error := None; sessionExpiry := None |}.

(** ** The world the service runs in *)

(** A call of [router.navigate(commands, {queryParams})]. *)
Record Navigation := mkNavigation {
  commands : list string;
  queryParams : list (string * string)
}.

(** A live subscription of an rxjs [timer(dueTime, period)]: when it was
    subscribed, and how many values it has emitted so far. *)
Record TimerSubscription := mkTimerSubscription {
  startedAt : Z;
  emitted : nat
}.

Record World := mkWorld {
  (* fields of AuthService *)
  isAuthenticatedSubject : bool;
  currentUserSubject : option AuthUser;
  authStateSignal : AuthState;
  authStateSubject : AuthState;
  sessionRefreshTimer : option nat;
  isInitialized : bool;
  (* the browser, the router and the rxjs scheduler *)
  sessionStorage : gmap string string;
  navigations : list Navigation;
  subscriptions : gmap nat TimerSubscription;
  nextSubscription : nat;
  now : Z;
  (* number of SDK calls made so far *)
  clock : nat
}.

Definition initialWorld : World :=
  {| isAuthenticatedSubject := false;
     currentUserSubject := None;
     authStateSignal := defaultAuthState;
     authStateSubject := defaultAuthState;
     sessionRefreshTimer := None;
     isInitialized := false;
     sessionStorage := ∅;
     navigations := [];
     subscriptions := ∅;
     nextSubscription := 0;
     now := 0%Z;
     clock := 0 |}.

Definition Async (A : Type) : Type := World -> Settled A * World.

Definition ret {A} (a : A) : Async A := fun w => (Fulfilled a, w).
Definition throw {A} (e : ProviderError) : Async A := fun w => (Rejected e, w).

Definition bind {A B} (m : Async A) (k : A -> Async B) : Async B :=
  fun w =>
    match m w with
    | (Fulfilled a, w') => k a w'
    | (Rejected e, w') => (Rejected e, w')
    end.

(** [try { m } catch (e) { h e }] *)
Definition tryCatch {A} (m : Async A) (h : ProviderError -> Async A) : Async A :=
  fun w =>
    match m w with
    | (Fulfilled a, w') => (Fulfilled a, w')
    | (Rejected e, w') => h e w'
    end.

(** [try { m } finally { f }], for a [finally] block that cannot throw. *)
Definition tryFinally {A} (m : Async A) (f : World -> World) : Async A :=
  fun w => let (r, w') := m w in (r, f w').

(** A synchronous statement that only changes the world. *)
Definition exec (f : World -> World) : Async unit := fun w => (Fulfilled tt, f w).

Notation "'do' x <- m ; k" := (bind m (fun x => k))
  (at level 10, x name, m at level 100, k at level 200).
Notation "m ;; k" := (bind m (fun _ => k))
  (at level 100, k at level 200, right associativity).

(** Field updates. *)
Definition with_legacy (b : bool) (u : option AuthUser) (w : World) : World :=
  {| isAuthenticatedSubject := b;
     currentUserSubject := u;
     authStateSignal := authStateSignal w;
     authStateSubject := authStateSubject w;
     sessionRefreshTimer := sessionRefreshTimer w;
     isInitialized := isInitialized w;
     sessionStorage := sessionStorage w;
     navigations := navigations w;
     subscriptions := subscriptions w;
     nextSubscription := nextSubscription w;
     now := now w;
     clock := clock w |}.

Definition with_authStateSignal (a : AuthState) (w : World) : World :=
  {| isAuthenticatedSubject := isAuthenticatedSubject w;
     currentUserSubject := currentUserSubject w;
     authStateSignal := a;
     authStateSubject := authStateSubject w;
     sessionRefreshTimer := sessionRefreshTimer w;
     isInitialized := isInitialized w;
     sessionStorage := sessionStorage w;
     navigations := navigations w;
     subscriptions := subscriptions w;
     nextSubscription := nextSubscription w;
     now := now w;
     clock := clock w |}.

Definition with_authStateSubject (a : AuthState) (w : World) : World :=
  {| isAuthenticatedSubject := isAuthenticatedSubject w;
     currentUserSubject := currentUserSubject w;
     authStateSignal := authStateSignal w;
     authStateSubject := a;
     sessionRefreshTimer := sessionRefreshTimer w;
     isInitialized := isInitialized w;
     sessionStorage := sessionStorage w;
     navigations := navigations w;
     subscriptions := subscriptions w;
     nextSubscription := nextSubscription w;
     now := now w;
     clock := clock w |}.

Definition with_timer (t : option nat) (subs : gmap nat TimerSubscription)
    (next : nat) (w : World) : World :=
  {| isAuthenticatedSubject := isAuthenticatedSubject w;
     currentUserSubject := currentUserSubject w;
     authStateSignal := authStateSignal w;
     authStateSubject := authStateSubject w;
     sessionRefreshTimer := t;
     isInitialized := isInitialized w;
     sessionStorage := sessionStorage w;
     navigations := navigations w;
     subscriptions := subs;
     nextSubscription := next;
     now := now w;
     clock := clock w |}.

Definition with_isInitialized (b : bool) (w : World) : World :=
  {| isAuthenticatedSubject := isAuthenticatedSubject w;
     currentUserSubject := currentUserSubject w;
     authStateSignal := authStateSignal w;
     authStateSubject := authStateSubject w;
     sessionRefreshTimer := sessionRefreshTimer w;
     isInitialized := b;
     sessionStorage := sessionStorage w;
     navigations := navigations w;
     subscriptions := subscriptions w;
     nextSubscription := nextSubscription w;
     now := now w;
     clock := clock w |}.

Definition with_sessionStorage (s : gmap string string) (w : World) : World :=
  {| isAuthenticatedSubject := isAuthenticatedSubject w;
     currentUserSubject := currentUserSubject w;
     authStateSignal := authStateSignal w;
     authStateSubject := authStateSubject w;
     sessionRefreshTimer := sessionRefreshTimer w;
     isInitialized := isInitialized w;
     sessionStorage := s;
     navigations := navigations w;
     subscriptions := subscriptions w;
     nextSubscription := nextSubscription w;
     now := now w;
     clock := clock w |}.

Definition with_navigations (l : list Navigation) (w : World) : World :=
  {| isAuthenticatedSubject := isAuthenticatedSubject w;
     currentUserSubject := currentUserSubject w;
     authStateSignal := authStateSignal w;
     authStateSubject := authStateSubject w;
     sessionRefreshTimer := sessionRefreshTimer w;
     isInitialized := isInitialized w;
     sessionStorage := sessionStorage w;
     navigations := l;
     subscriptions := subscriptions w;
     nextSubscription := nextSubscription w;
     now := now w;
     clock := clock w |}.

Definition with_now (t : Z) (w : World) : World :=
  {| isAuthenticatedSubject := isAuthenticatedSubject w;
     currentUserSubject := currentUserSubject w;
     authStateSignal := authStateSignal w;
     authStateSubject := authStateSubject w;
     sessionRefreshTimer := sessionRefreshTimer w;
     isInitialized := isInitialized w;
     sessionStorage := sessionStorage w;
     navigations := navigations w;
     subscriptions := subscriptions w;
     nextSubscription := nextSubscription w;
     now := t;
     clock := clock w |}.

Definition with_clock (n : nat) (w : World) : World :=
  {| isAuthenticatedSubject := isAuthenticatedSubject w;
     currentUserSubject := currentUserSubject w;
     authStateSignal := authStateSignal w;
     authStateSubject := authStateSubject w;
     sessionRefreshTimer := sessionRefreshTimer w;
     isInitialized := isInitialized w;
     sessionStorage := sessionStorage w;
     navigations := navigations w;
     subscriptions := subscriptions w;
     nextSubscription := nextSubscription w;
     now := now w;
     clock := n |}.

(** [await f(...)] for an SDK function [f]: the oracle answers for the
    current call number, and the call is counted. *)
Definition sdk {A} (f : nat -> Settled A) : Async A :=
  fun w => (f (clock w), with_clock (S (clock w)) w).

(** [router.navigate] *)
Definition navigate (cmds : list string) (qp : list (string * string)) : Async unit :=
  exec (fun w => with_navigations (navigations w ++ [mkNavigation cmds qp]) w).

(** * AuthService *)

Module AuthService.

(** The refresh period: [45 * 60 * 1000] milliseconds. *)
Definition REFRESH_DUE : Z := 0.
Definition REFRESH_PERIOD : Z := 45 * 60 * 1000.

(** rxjs [timer(dueTime, period)]: the n-th value of a subscription is due
    [dueTime + n * period] after the subscription was made. *)
Definition emissionTime (sub : TimerSubscription) (n : nat) : Z :=
  (startedAt sub + REFRESH_DUE + Z.of_nat n * REFRESH_PERIOD)%Z.

(** When the next value of a live subscription is due. *)
Definition nextDue (sub : TimerSubscription) : Z := emissionTime sub (emitted sub).

(** [session.tokens?.accessToken?.payload?.exp], then
    [expiry ? new Date(expiry * 1000) : null]. *)
Definition expiryOf (session : AuthSession) : option Z :=
  match tokens session with
  | Some t =>
      match accessToken t with
      | Some jwt =>
          match payload_exp jwt with
          | Some e => if (e =? 0)%Z then None else Some (e * 1000)%Z
          | None => None
          end
      | None => None
      end
  | None => None
  end.

(** [session.tokens?.accessToken?.toString() || null] *)
Definition tokenOf (session : AuthSession) : option string :=
  match tokens session with
  | Some t =>
      match accessToken t with
      | Some jwt => if truthy (jwt_toString jwt) then Some (jwt_toString jwt) else None
      | None => None
      end
  | None => None
  end.

(** The [switch (error.name || error.code)] of [handleAuthError]. *)
Definition userMessage (e : ProviderError) : string :=
  let key := or_else (err_name e) (err_code e) in
  if String.eqb key "UserNotConfirmedException" then
    "Please confirm your email address before signing in."
  else if String.eqb key "NotAuthorizedException" then
    "Invalid email or password."
  else if String.eqb key "UserNotFoundException" then
    "No account found with this email address."
  else if String.eqb key "TooManyRequestsException" then
    "Too many failed attempts. Please try again later."
  else if String.eqb key "LimitExceededException" then
    "Attempt limit exceeded. Please try again later."
  else "An unexpected error occurred. Please try again.".

(** Both copies of the Session are written together. *)
Definition publish (a : AuthState) (w : World) : World :=
  with_authStateSubject a (with_authStateSignal a w).

Definition setLoadingNow (b : bool) (w : World) : World :=
  let currentState := authStateSignal w in
  publish {| isAuthenticated := isAuthenticated currentState;
             user := user currentState;
             isLoading := b;
             error := error currentState;
             sessionExpiry := sessionExpiry currentState |} w.

Definition setLoading (b : bool) : Async unit := exec (setLoadingNow b).

Definition setError (msg : option string) : Async unit :=
  exec (fun w =>
    let currentState := authStateSignal w in
    publish {| isAuthenticated := isAuthenticated currentState;
               user := user currentState;
               isLoading := isLoading currentState;
               error := msg;
               sessionExpiry := sessionExpiry currentState |} w).

(** The [operation] label only goes to the console. *)
Definition handleAuthError (e : ProviderError) (operation : string) : Async unit :=
  setError (Some (userMessage e)).

Definition handleSignInNextStep (step : SignInStep) : Async unit :=
  match step with
  | CONFIRM_SIGN_UP => navigate ["/auth/confirm"] [("step", "signup")]
  | RESET_PASSWORD => navigate ["/auth/reset-password"] []
  | CONFIRM_SIGN_IN_WITH_NEW_PASSWORD_REQUIRED => navigate ["/auth/new-password"] []
  | _ => ret tt
  end.

Definition clearSessionTimer : Async unit :=
  exec (fun w =>
    match sessionRefreshTimer w with
    | Some id => with_timer None (delete id (subscriptions w)) (nextSubscription w) w
    | None => w
    end).

(** [getReturnUrl]: read the slot, remove it, default when falsy. *)
Definition getReturnUrl : Async string :=
  fun w =>
    let returnUrl := sessionStorage w !! "returnUrl" in
    let w' := with_sessionStorage (delete "returnUrl" (sessionStorage w)) w in
    (Fulfilled (match returnUrl with
                | Some u => or_else u "/dashboard"
                | None => "/dashboard"
                end), w').

Definition setReturnUrl (url : string) : Async unit :=
  exec (fun w => with_sessionStorage (<["returnUrl" := url]> (sessionStorage w)) w).

Definition setAuthenticated (u : AuthUser) : Async unit :=
  exec (with_legacy true (Some u)).

(** Nothing to wait for once every method is run to completion. *)
Definition waitForInitialization : Async unit := ret tt.

Section WithProvider.
Variable P : Amplify.Provider.

Definition checkAuthStatus : Async bool :=
  tryCatch
    (do u <- sdk (Amplify.getCurrentUser P);
     exec (with_legacy true (Some u)) ;;
     ret true)
    (fun _ =>
     exec (with_legacy false None) ;;
     ret false).

Definition logout : Async unit :=
  tryCatch
    (sdk (Amplify.signOut P) ;;
     exec (with_legacy false None) ;;
     navigate ["/landing"] [])
    (fun _ =>
     exec (with_legacy false None) ;;
     navigate ["/landing"] []).

Definition getSessionExpiry : Async (option Z) :=
  tryCatch
    (do session <- sdk (Amplify.fetchAuthSession P);
     ret (expiryOf session))
    (fun _ => ret None).

(** The comparison with [Date.now()] only decides whether to warn on the
    console. *)
Definition checkSessionExpiry : Async unit :=
  tryCatch
    (do _expiry <- getSessionExpiry;
     ret tt)
    (fun _ => ret tt).

(** [isLoading] is read when the object literal is built, before the
    [await] of [getSessionExpiry]. *)
Definition updateAuthState (isAuth : bool) (u : option AuthUser) : Async unit :=
  fun w =>
    let loading := isLoading (authStateSignal w) in
    (do expiry <- (if isAuth then getSessionExpiry else ret None);
     exec (publish {| isAuthenticated := isAuth;
                      user := u;
                      isLoading := loading;
                      error := None;
                      sessionExpiry := expiry |})) w.

Definition getAccessToken : Async (option string) :=
  tryCatch
    (do session <- sdk (Amplify.fetchAuthSession P);
     ret (tokenOf session))
    (fun _ => ret None).

Definition refreshSession : Async unit :=
  tryCatch
    (do session <- sdk (Amplify.fetchAuthSession P);
     match tokens session with
     | Some _ =>
         do u <- sdk (Amplify.getCurrentUser P);
         updateAuthState true (Some u) ;;
         checkSessionExpiry
     | None => updateAuthState false None
     end)
    (fun e =>
     updateAuthState false None ;;
     throw e).

Definition signOut : Async unit :=
  tryFinally
    (tryCatch
       (setLoading true ;;
        sdk (Amplify.signOut P) ;;
        updateAuthState false None ;;
        clearSessionTimer ;;
        navigate ["/login"] [])
       (fun e =>
        handleAuthError e "Sign Out" ;;
        throw e))
    (setLoadingNow false).

(** [timer(0, 45 * 60 * 1000).subscribe(...)] after [clearSessionTimer()];
    the subscription handle is kept in [sessionRefreshTimer]. *)
Definition setupSessionRefresh : Async unit :=
  clearSessionTimer ;;
  exec (fun w =>
    let id := nextSubscription w in
    with_timer (Some id)
      (<[id := mkTimerSubscription (now w) 0]> (subscriptions w))
      (S id) w).

(** The body of the subscriber of the refresh timer. *)
Definition onRefreshTimer : Async unit :=
  tryCatch refreshSession (fun _ => signOut).

(** [user] is an object, hence truthy whenever [getCurrentUser] resolves. *)
Definition initializeAuth : Async unit :=
  tryFinally
    (tryCatch
       (setLoading true ;;
        do u <- sdk (Amplify.getCurrentUser P);
        updateAuthState true (Some u) ;;
        checkSessionExpiry)
       (fun _ => updateAuthState false None))
    (fun w => with_isInitialized true (setLoadingNow false w)).

Definition signIn (credentials : SignInInput) : Async unit :=
  tryFinally
    (tryCatch
       (setLoading true ;;
        do result <- sdk (Amplify.signIn P credentials);
        if isSignedIn result then
          do u <- sdk (Amplify.getCurrentUser P);
          updateAuthState true (Some u) ;;
          setupSessionRefresh ;;
          do returnUrl <- getReturnUrl;
          navigate [returnUrl] []
        else
          handleSignInNextStep (nextStep result))
       (fun e =>
        handleAuthError e "Sign In" ;;
        throw e))
    (setLoadingNow false).

Definition signUp (userDetails : SignUpInput) : Async SignUpOutput :=
  tryFinally
    (tryCatch
       (setLoading true ;;
        do result <- sdk (Amplify.signUp P userDetails);
        ret result)
       (fun e =>
        handleAuthError e "Sign Up" ;;
        throw e))
    (setLoadingNow false).

Definition confirmSignUp (name confirmationCode : string) : Async unit :=
  tryFinally
    (tryCatch
       (setLoading true ;;
        sdk (Amplify.confirmSignUp P name confirmationCode))
       (fun e =>
        handleAuthError e "Confirm Sign Up" ;;
        throw e))
    (setLoadingNow false).

Definition resendConfirmationCode (name : string) : Async unit :=
  tryCatch
    (sdk (Amplify.resendSignUpCode P name))
    (fun e =>
     handleAuthError e "Resend Code" ;;
     throw e).

Definition resetPassword (name : string) : Async unit :=
  tryFinally
    (tryCatch
       (setLoading true ;;
        sdk (Amplify.resetPassword P name))
       (fun e =>
        handleAuthError e "Reset Password" ;;
        throw e))
    (setLoadingNow false).

Definition confirmPasswordReset (name confirmationCode newPassword : string)
    : Async unit :=
  tryFinally
    (tryCatch
       (setLoading true ;;
        sdk (Amplify.confirmResetPassword P name confirmationCode newPassword))
       (fun e =>
        handleAuthError e "Confirm Password Reset" ;;
        throw e))
    (setLoadingNow false).

Definition checkAuthenticationState : Async unit :=
  tryCatch
    (do u <- sdk (Amplify.getCurrentUser P);
     updateAuthState true (Some u) ;;
     checkSessionExpiry)
    (fun _ => updateAuthState false None).

Definition clearAuthState : Async unit :=
  updateAuthState false None ;;
  clearSessionTimer.

(** The constructor: [checkAuthStatus()], [initializeAuth()] and
    [setupSessionRefresh()], none of them awaited. *)
Definition construct : World :=
  let w1 := snd (checkAuthStatus initialWorld) in
  let w2 := snd (initializeAuth w1) in
  snd (setupSessionRefresh w2).

(** *** The scheduler *)

(** The earliest value due from a live subscription, capped by [limit]. *)
Definition earliestDue (subs : gmap nat TimerSubscription) (limit : Z) : Z :=
  map_fold (fun _ sub acc => Z.min (nextDue sub) acc) limit subs.

(** Time passes, but never beyond a value that is due and not yet
    delivered. *)
Definition elapse (dt : Z) : Async unit :=
  exec (fun w =>
    with_now (Z.max (now w)
                (earliestDue (subscriptions w) (now w + Z.max 0 dt))) w).

(** The scheduler delivers the next value of subscription [id]: this
    happens when the value is due, and only while the subscription is
    live.  The subscriber body then runs. *)
Definition timerFire (id : nat) : Async unit :=
  fun w =>
    match subscriptions w !! id with
    | Some sub =>
        if (nextDue sub =? now w)%Z then
          onRefreshTimer
            (with_timer (sessionRefreshTimer w)
               (<[id := mkTimerSubscription (startedAt sub) (S (emitted sub))]>
                  (subscriptions w))
               (nextSubscription w) w)
        else (Fulfilled tt, w)
    | None => (Fulfilled tt, w)
    end.

(** *** Everything that can happen to a constructed service *)

Inductive Op :=
| CheckAuthStatus
| Logout
| SetAuthenticated (u : AuthUser)
| WaitForInitialization
| SignIn (credentials : SignInInput)
| SignOut
| SignUp (userDetails : SignUpInput)
| ConfirmSignUp (name confirmationCode : string)
| ResendConfirmationCode (name : string)
| ResetPassword (name : string)
| ConfirmPasswordReset (name confirmationCode newPassword : string)
| RefreshSession
| GetAccessToken
| CheckAuthenticationState
| SetReturnUrl (url : string)
| ClearAuthState
| TimerFire (id : nat)
| Elapse (dt : Z).

Definition runOp (op : Op) (w : World) : World :=
  match op with
  | CheckAuthStatus => snd (checkAuthStatus w)
  | Logout => snd (logout w)
  | SetAuthenticated u => snd (setAuthenticated u w)
  | WaitForInitialization => snd (waitForInitialization w)
  | SignIn c => snd (signIn c w)
  | SignOut => snd (signOut w)
  | SignUp d => snd (signUp d w)
  | ConfirmSignUp n c => snd (confirmSignUp n c w)
  | ResendConfirmationCode n => snd (resendConfirmationCode n w)
  | ResetPassword n => snd (resetPassword n w)
  | ConfirmPasswordReset n c p => snd (confirmPasswordReset n c p w)
  | RefreshSession => snd (refreshSession w)
  | GetAccessToken => snd (getAccessToken w)
  | CheckAuthenticationState => snd (checkAuthenticationState w)
  | SetReturnUrl u => snd (setReturnUrl u w)
  | ClearAuthState => snd (clearAuthState w)
  | TimerFire id => snd (timerFire id w)
  | Elapse dt => snd (elapse dt w)
  end.

Definition runOps (ops : list Op) (w : World) : World :=
  foldl (fun w op => runOp op w) w ops.

End WithProvider.

End AuthService.

(** * AuthGuard *)

Module AuthGuard.
Section WithProvider.
Variable P : Amplify.Provider.

Definition canActivate : Async bool :=
  do isAuth <- AuthService.checkAuthStatus P;
  if negb isAuth then
    navigate ["/login"] [] ;;
    ret false
  else ret true.

End WithProvider.
End AuthGuard.

(** * AuthInterceptor *)

Module AuthInterceptor.

Record HttpRequest := mkHttpRequest {
  url : string;
  headers : gmap string string
}.

Record HttpResponse := mkHttpResponse {
  status : Z;
  body : string
}.

(** What travels on the error channel of an observable of the pipeline. *)
Inductive HttpError :=
| HttpErrorResponse (status : Z)
| JsError (message : string)
| SdkError (e : ProviderError).

(** The handler's observable either emits the response and completes, or
    errors. *)
Inductive Outcome :=
| Emits (r : HttpResponse)
| Fails (e : HttpError).

(** Where the subscription made for one intercepted request stands. *)
Inductive Stage :=
| AwaitingToken                 (* addTokenToRequest: getAccessToken() pending *)
| Forwarded (guarded : bool)    (* next.handle(request); guarded by the 401 catchError or not *)
| LeadingRefresh                (* handle401Error, first branch: refreshToken() pending *)
| AwaitingRefreshedToken        (* handle401Error, second branch: waiting on refreshTokenSubject *)
| Retried (leader : bool)       (* next.handle(addAuthHeader(request, token)) *)
| Settled_ (o : Outcome).       (* the caller has its response or its error *)

Record Pending := mkPending {
  request : HttpRequest;
  stage : Stage
}.

Record State := mkState {
  isRefreshing : bool;
  refreshTokenSubject : option string;
  (* subscribers of refreshTokenSubject still waiting for a non-null value *)
  observers : list nat;
  inflight : gmap nat Pending;
  (* the calls of next.handle, oldest first *)
  handled : list (nat * HttpRequest);
  (* the calls of authService.refreshSession() and authService.signOut() *)
  refreshSessionCalls : nat;
  signOutCalls : nat
}.

Definition initialState : State :=
  {| isRefreshing := false;
     refreshTokenSubject := None;
     observers := [];
     inflight := ∅;
     handled := [];
     refreshSessionCalls := 0;
     signOutCalls := 0 |}.

Definition excludedUrls : list string :=
  ["/auth/"; "/public/"; "amazonaws.com"; "amplifyapp.com"].

Definition shouldExcludeUrl (u : string) : bool :=
  existsb (fun excludedUrl => includes u excludedUrl) excludedUrls.

(** [request.clone({ setHeaders: { Authorization: `Bearer ${token}` } })];
    a header is looked up under the name it was set with. *)
Definition addAuthHeader (r : HttpRequest) (token : string) : HttpRequest :=
  {| url := url r;
     headers := <["Authorization" := "Bearer " ++ token]> (headers r) |}.

Definition setRefreshing (b : bool) (s : State) : State :=
  {| isRefreshing := b;
     refreshTokenSubject := refreshTokenSubject s;
     observers := observers s;
     inflight := inflight s;
     handled := handled s;
     refreshSessionCalls := refreshSessionCalls s;
     signOutCalls := signOutCalls s |}.

Definition setSubject (v : option string) (obs : list nat) (s : State) : State :=
  {| isRefreshing := isRefreshing s;
     refreshTokenSubject := v;
     observers := obs;
     inflight := inflight s;
     handled := handled s;
     refreshSessionCalls := refreshSessionCalls s;
     signOutCalls := signOutCalls s |}.

Definition setStage (id : nat) (r : HttpRequest) (st : Stage) (s : State) : State :=
  {| isRefreshing := isRefreshing s;
     refreshTokenSubject := refreshTokenSubject s;
     observers := observers s;
     inflight := <[id := mkPending r st]> (inflight s);
     handled := handled s;
     refreshSessionCalls := refreshSessionCalls s;
     signOutCalls := signOutCalls s |}.

(** [next.handle(r)] on behalf of request [id]. *)
Definition handle (id : nat) (r : HttpRequest) (s : State) : State :=
  {| isRefreshing := isRefreshing s;
     refreshTokenSubject := refreshTokenSubject s;
     observers := observers s;
     inflight := inflight s;
     handled := handled s ++ [(id, r)];
     refreshSessionCalls := refreshSessionCalls s;
     signOutCalls := signOutCalls s |}.

(** [this.authService.refreshSession()] *)
Definition callRefreshSession (s : State) : State :=
  {| isRefreshing := isRefreshing s;
     refreshTokenSubject := refreshTokenSubject s;
     observers := observers s;
     inflight := inflight s;
     handled := handled s;
     refreshSessionCalls := S (refreshSessionCalls s);
     signOutCalls := signOutCalls s |}.

(** [this.authService.signOut()] *)
Definition callSignOut (s : State) : State :=
  {| isRefreshing := isRefreshing s;
     refreshTokenSubject := refreshTokenSubject s;
     observers := observers s;
     inflight := inflight s;
     handled := handled s;
     refreshSessionCalls := refreshSessionCalls s;
     signOutCalls := S (signOutCalls s) |}.

Definition TOKEN_REFRESH_FAILED : HttpError := JsError "Token refresh failed".

(** The [switchMap] of the second branch of [handle401Error], run for a
    waiter once a non-null value arrives. *)
Definition continueWaiter (token : string) (id : nat) (r : HttpRequest) (s : State)
    : State :=
  if truthy token then
    setStage id r (Retried false) (handle id (addAuthHeader r token) s)
  else
    setStage id r (Settled_ (Fails TOKEN_REFRESH_FAILED)) s.

Definition resume (token : string) (s : State) (id : nat) : State :=
  match inflight s !! id with
  | Some (mkPending r AwaitingRefreshedToken) => continueWaiter token id r s
  | _ => s
  end.

(** [refreshTokenSubject.next(token)] for a string [token]: it passes
    [filter(token => token !== null)], so every waiter takes it, in
    subscription order, and unsubscribes ([take(1)]). *)
Definition next (token : string) (s : State) : State :=
  foldl (resume token) (setSubject (Some token) [] s) (observers s).

(** [handle401Error(request, next)], subscribed at once by [catchError]. *)
Definition handle401Error (id : nat) (r : HttpRequest) (s : State) : State :=
  if negb (isRefreshing s) then
    setStage id r LeadingRefresh
      (callRefreshSession (setSubject None (observers s) (setRefreshing true s)))
  else
    match refreshTokenSubject s with
    | Some token => continueWaiter token id r s
    | None =>
        setStage id r AwaitingRefreshedToken
          (setSubject None (observers s ++ [id]) s)
    end.

Inductive Event :=
(* intercept(request, next); [authState] is the current value of authState$ *)
| Intercept (id : nat) (r : HttpRequest) (authState : AuthState)
(* the promise of getAccessToken() made for request [id] settles *)
| AccessToken (id : nat) (t : Settled (option string))
(* the handler answers the copy of request [id] that is in flight *)
| Response (id : nat) (o : Outcome)
(* refreshSession() then getAccessToken(), started for leader [id], settle *)
| Refreshed (id : nat) (t : Settled (option string)).

(** [error.status === 401] in the [catchError] of [addTokenToRequest]. *)
Definition is401 (o : Outcome) : bool :=
  match o with
  | Fails (HttpErrorResponse st) => (st =? 401)%Z
  | _ => false
  end.

(** Each intercepted request comes with a fresh [id]. *)
Definition onIntercept (id : nat) (r : HttpRequest) (authState : AuthState)
    (s : State) : State :=
  match inflight s !! id with
  | Some _ => s
  | None =>
      if shouldExcludeUrl (url r) then
        setStage id r (Forwarded false) (handle id r s)
      else if isAuthenticated authState then
        setStage id r AwaitingToken s
      else
        setStage id r (Forwarded false) (handle id r s)
  end.

Definition onAccessToken (id : nat) (t : Settled (option string)) (s : State)
    : State :=
  match inflight s !! id with
  | Some (mkPending r AwaitingToken) =>
      match t with
      | Fulfilled (Some token) =>
          let r' := if truthy token then addAuthHeader r token else r in
          setStage id r' (Forwarded true) (handle id r' s)
      | Fulfilled None =>
          setStage id r (Forwarded true) (handle id r s)
      | Rejected _ =>
          setStage id r (Forwarded false) (handle id r s)
      end
  | _ => s
  end.

Definition onResponse (id : nat) (o : Outcome) (s : State) : State :=
  match inflight s !! id with
  | Some (mkPending r (Forwarded false)) => setStage id r (Settled_ o) s
  | Some (mkPending r (Forwarded true)) =>
      if is401 o then handle401Error id r s
      else setStage id r (Settled_ o) s
  | Some (mkPending r (Retried false)) => setStage id r (Settled_ o) s
  | Some (mkPending r (Retried true)) =>
      match o with
      | Emits _ =>
          (* complete, then finalize *)
          setRefreshing false (setStage id r (Settled_ o) s)
      | Fails _ =>
          (* catchError, then finalize *)
          setRefreshing false
            (setStage id r (Settled_ o) (callSignOut (setRefreshing false s)))
      end
  | _ => s
  end.

Definition onRefreshed (id : nat) (t : Settled (option string)) (s : State)
    : State :=
  match inflight s !! id with
  | Some (mkPending r LeadingRefresh) =>
      match t with
      | Fulfilled tok =>
          (* observer.next(token || '') reaches the switchMap *)
          let token := default "" tok in
          let s1 := next token (setRefreshing false s) in
          if truthy token then
            setStage id r (Retried true) (handle id (addAuthHeader r token) s1)
          else
            (* signOut(), throwError; then catchError and finalize *)
            setRefreshing false
              (setStage id r (Settled_ (Fails TOKEN_REFRESH_FAILED))
                 (callSignOut (setRefreshing false (callSignOut s1))))
      | Rejected e =>
          (* catchError, then finalize; the subject is not told *)
          setRefreshing false
            (setStage id r (Settled_ (Fails (SdkError e)))
               (callSignOut (setRefreshing false s)))
      end
  | _ => s
  end.

Definition step (s : State) (ev : Event) : State :=
  match ev with
  | Intercept id r authState => onIntercept id r authState s
  | AccessToken id t => onAccessToken id t s
  | Response id o => onResponse id o s
  | Refreshed id t => onRefreshed id t s
  end.

Definition run (s : State) (evs : list Event) : State := foldl step s evs.

(** The copies of request [id] handed to [next.handle]. *)
Definition handledFor (id : nat) (s : State) : list HttpRequest :=
  snd <$> filter (fun e => fst e = id) (handled s).

Definition stageOf (id : nat) (s : State) : option Stage :=
  stage <$> inflight s !! id.

End AuthInterceptor.

(** * Invariants *)

(** The Session invariant of the data model. *)
Definition SessionInv (a : AuthState) : Prop :=
  (isAuthenticated a = true -> is_Some (user a))
  /\ (isAuthenticated a = false -> user a = None /\ sessionExpiry a = None).

(** The same reading of the two legacy subjects. *)
Definition LegacyInv (w : World) : Prop :=
  (isAuthenticatedSubject w = true -> is_Some (currentUserSubject w))
  /\ (isAuthenticatedSubject w = false -> currentUserSubject w = None).

Definition WorldInv (w : World) : Prop :=
  SessionInv (authStateSignal w)
  /\ SessionInv (authStateSubject w)
  /\ LegacyInv w.

(** Every live timer subscription is the one the service holds. *)
Definition TimerInv (w : World) : Prop :=
  forall id, is_Some (subscriptions w !! id) -> sessionRefreshTimer w = Some id.

(** A computation keeps an invariant of the world, however it settles. *)
Definition Preserves (I : World -> Prop) {A} (m : Async A) : Prop :=
  forall w, I w -> I (snd (m w)).

(** What [next.handle] has seen of one request, by the stage it is in:
    nothing before the token is known; then the forwarded request [r]; and
    after a retry, [r] followed by one copy of [r] carrying a non-empty
    refreshed token. *)
Definition RetriedOnce (r : AuthInterceptor.HttpRequest)
    (seen : list AuthInterceptor.HttpRequest) : Prop :=
  exists token, truthy token = true
    /\ seen = [r; AuthInterceptor.addAuthHeader r token].

Definition StageOk (r : AuthInterceptor.HttpRequest) (st : AuthInterceptor.Stage)
    (seen : list AuthInterceptor.HttpRequest) : Prop :=
  match st with
  | AuthInterceptor.AwaitingToken => seen = []
  | AuthInterceptor.Forwarded _
  | AuthInterceptor.LeadingRefresh
  | AuthInterceptor.AwaitingRefreshedToken => seen = [r]
  | AuthInterceptor.Retried _ => RetriedOnce r seen
  | AuthInterceptor.Settled_ _ => seen = [r] \/ RetriedOnce r seen
  end.

Definition ShapeAt (id : nat) (s : AuthInterceptor.State) : Prop :=
  match AuthInterceptor.inflight s !! id with
  | None => AuthInterceptor.handledFor id s = []
  | Some (AuthInterceptor.mkPending r st) =>
      StageOk r st (AuthInterceptor.handledFor id s)
  end.

Definition Shape (s : AuthInterceptor.State) : Prop := forall id, ShapeAt id s.

(** Request [id] is not parked on [refreshTokenSubject]. *)
Definition notWaiting (id : nat) (s : AuthInterceptor.State) : Prop :=
  forall r, AuthInterceptor.inflight s !! id
            <> Some (AuthInterceptor.mkPending r AuthInterceptor.AwaitingRefreshedToken).

(** Nothing is in flight that could still move: every request is settled or
    parked on [refreshTokenSubject]. *)
Definition parkedOrSettled (p : AuthInterceptor.Pending) : bool :=
  match AuthInterceptor.stage p with
  | AuthInterceptor.AwaitingRefreshedToken | AuthInterceptor.Settled_ _ => true
  | _ => false
  end.

Definition Quiescent (s : AuthInterceptor.State) : Prop :=
  map_Forall (fun _ p => parkedOrSettled p = true) (AuthInterceptor.inflight s).

(** Every request parked on [refreshTokenSubject] is among its observers. *)
Definition Parked (s : AuthInterceptor.State) : Prop :=
  forall id r,
    AuthInterceptor.inflight s !! id
      = Some (AuthInterceptor.mkPending r AuthInterceptor.AwaitingRefreshedToken) ->
    id ∈ AuthInterceptor.observers s.

(** What a parked request does with the value it was waiting for: the stage
    it moves to, and what it hands to the handler. *)
Definition released (token : string) (r0 : AuthInterceptor.HttpRequest)
    : AuthInterceptor.Stage :=
  if truthy token then AuthInterceptor.Retried false
  else AuthInterceptor.Settled_
         (AuthInterceptor.Fails AuthInterceptor.TOKEN_REFRESH_FAILED).

Definition releasedWith (token : string) (r0 : AuthInterceptor.HttpRequest)
    : list AuthInterceptor.HttpRequest :=
  if truthy token then [AuthInterceptor.addAuthHeader r0 token] else [].

(** The request an event is about. *)
Definition eventId (ev : AuthInterceptor.Event) : nat :=
  match ev with
  | AuthInterceptor.Intercept id _ _ => id
  | AuthInterceptor.AccessToken id _ => id
  | AuthInterceptor.Response id _ => id
  | AuthInterceptor.Refreshed id _ => id
  end.

Definition isIntercept (ev : AuthInterceptor.Event) : bool :=
  match ev with
  | AuthInterceptor.Intercept _ _ _ => true
  | _ => false
  end.

(** * Scenarios *)

Module Scenario.

Definition alice : AuthUser := mkAuthUser "u-1" "alice".

Definition liveSession : AuthSession :=
  mkAuthSession (Some (mkAuthTokens (Some (mkJWT "tok-1" (Some 1900000000%Z))))).

Definition networkError : ProviderError := mkProviderError "NetworkError" "".
Definition notSignedIn : ProviderError :=
  mkProviderError "UserUnAuthenticatedException" "".

(** A signed-in browser whose network then fails on the sign-out call. *)
Definition signedIn : Amplify.Provider :=
  {| Amplify.getCurrentUser := fun _ => Fulfilled alice;
     Amplify.fetchAuthSession := fun _ => Fulfilled liveSession;
     Amplify.signOut := fun _ => Rejected networkError;
     Amplify.signIn := fun _ _ => Fulfilled (mkSignInOutput true DONE);
     Amplify.signUp := fun _ _ => Fulfilled (mkSignUpOutput true "DONE");
     Amplify.confirmSignUp := fun _ _ _ => Fulfilled tt;
     Amplify.resendSignUpCode := fun _ _ => Fulfilled tt;
     Amplify.resetPassword := fun _ _ => Fulfilled tt;
     Amplify.confirmResetPassword := fun _ _ _ _ => Fulfilled tt |}.

(** Nobody is signed in. *)
Definition anonymous : Amplify.Provider :=
  {| Amplify.getCurrentUser := fun _ => Rejected notSignedIn;
     Amplify.fetchAuthSession := fun _ => Fulfilled (mkAuthSession None);
     Amplify.signOut := fun _ => Fulfilled tt;
     Amplify.signIn := fun _ _ => Rejected notSignedIn;
     Amplify.signUp := fun _ _ => Fulfilled (mkSignUpOutput true "DONE");
     Amplify.confirmSignUp := fun _ _ _ => Fulfilled tt;
     Amplify.resendSignUpCode := fun _ _ => Fulfilled tt;
     Amplify.resetPassword := fun _ _ => Fulfilled tt;
     Amplify.confirmResetPassword := fun _ _ _ _ => Fulfilled tt |}.


Definition todosRequest : AuthInterceptor.HttpRequest :=
  AuthInterceptor.mkHttpRequest "https://api.example.com/todos" ∅.

Definition profileRequest : AuthInterceptor.HttpRequest :=
  AuthInterceptor.mkHttpRequest "https://api.example.com/profile" ∅.

Definition authenticatedState : AuthState :=
  {| isAuthenticated := true; user := Some alice; isLoading := false;
     error := None; sessionExpiry := Some 1900000000000%Z |}.

Definition unauthorized : AuthInterceptor.Outcome :=
  AuthInterceptor.Fails (AuthInterceptor.HttpErrorResponse 401).

(** Two requests are sent with a stale token and both come back 401, the
    second while the refresh started for the first is still in flight; then
    that refresh rejects. *)
Definition settingsRequest : AuthInterceptor.HttpRequest :=
  AuthInterceptor.mkHttpRequest "https://api.example.com/settings" ∅.

(** A third request, later, is answered 401 as well and its refresh
    succeeds. *)
Definition laterRefreshSucceeds : list AuthInterceptor.Event :=
  [ AuthInterceptor.Intercept 3 settingsRequest authenticatedState;
    AuthInterceptor.AccessToken 3 (Fulfilled (Some "stale"));
    AuthInterceptor.Response 3 unauthorized;
    AuthInterceptor.Refreshed 3 (Fulfilled (Some "fresh")) ].

(** One request is answered 401, the refresh yields a token, and the
    request is retried. *)
Definition unauthorizedThenRetried : list AuthInterceptor.Event :=
  [ AuthInterceptor.Intercept 1 todosRequest authenticatedState;
    AuthInterceptor.AccessToken 1 (Fulfilled (Some "stale"));
    AuthInterceptor.Response 1 unauthorized;
    AuthInterceptor.Refreshed 1 (Fulfilled (Some "fresh")) ].

(** Two requests are answered 401, the second while the refresh started
    for the first is in flight. *)
Definition twoUnauthorized : list AuthInterceptor.Event :=
  [ AuthInterceptor.Intercept 1 todosRequest authenticatedState;
    AuthInterceptor.Intercept 2 profileRequest authenticatedState;
    AuthInterceptor.AccessToken 1 (Fulfilled (Some "stale"));
    AuthInterceptor.AccessToken 2 (Fulfilled (Some "stale"));
    AuthInterceptor.Response 1 unauthorized;
    AuthInterceptor.Response 2 unauthorized ].

(** Three requests; the first is answered 401, its refresh succeeds and it
    is retried; the second is then answered 401 and starts a refresh of its
    own. *)
Definition retryAndRefreshInFlight : list AuthInterceptor.Event :=
  [ AuthInterceptor.Intercept 1 todosRequest authenticatedState;
    AuthInterceptor.Intercept 2 profileRequest authenticatedState;
    AuthInterceptor.Intercept 3 settingsRequest authenticatedState;
    AuthInterceptor.AccessToken 1 (Fulfilled (Some "stale"));
    AuthInterceptor.AccessToken 2 (Fulfilled (Some "stale"));
    AuthInterceptor.AccessToken 3 (Fulfilled (Some "stale"));
    AuthInterceptor.Response 1 unauthorized;
    AuthInterceptor.Refreshed 1 (Fulfilled (Some "fresh"));
    AuthInterceptor.Response 2 unauthorized ].

Definition twoUnauthorizedThenRefreshRejects : list AuthInterceptor.Event :=
  [ AuthInterceptor.Intercept 1 todosRequest authenticatedState;
    AuthInterceptor.Intercept 2 profileRequest authenticatedState;
    AuthInterceptor.AccessToken 1 (Fulfilled (Some "stale"));
    AuthInterceptor.AccessToken 2 (Fulfilled (Some "stale"));
    AuthInterceptor.Response 1 unauthorized;
    AuthInterceptor.Response 2 unauthorized;
    AuthInterceptor.Refreshed 1 (Rejected networkError) ].

End Scenario.

(** * The rest of the application *)

(** ** Computations over any state

    The components keep their own fields; their asynchronous methods are
    computations over those, with the same reading of [await] and
    [try/catch] as for the service. *)

Module Task.
Section WithState.
Context {S : Type}.

Definition T (A : Type) : Type := S -> Settled A * S.

Definition ret {A} (a : A) : T A := fun c => (Fulfilled a, c).

Definition bind {A B} (m : T A) (k : A -> T B) : T B :=
  fun c =>
    match m c with
    | (Fulfilled a, c') => k a c'
    | (Rejected e, c') => (Rejected e, c')
    end.

Definition tryCatch {A} (m : T A) (h : ProviderError -> T A) : T A :=
  fun c =>
    match m c with
    | (Fulfilled a, c') => (Fulfilled a, c')
    | (Rejected e, c') => h e c'
    end.

Definition exec (f : S -> S) : T unit := fun c => (Fulfilled tt, f c).

End WithState.
End Task.

(** ** Roles ([AuthService.hasRole], [AuthService.hasAnyRole]) *)

(** [String.prototype.split(',')]: the pieces between the commas; a string
    without a comma is one piece, the empty string included. *)
Fixpoint splitComma (s : string) : list string :=
  match s with
  | EmptyString => [""]
  | String c rest =>
      if String.eqb (String c "") "," then "" :: splitComma rest
      else match splitComma rest with
           | piece :: pieces => String c piece :: pieces
           | [] => [String c ""]
           end
  end.

(** [Array.prototype.join(',')] *)
Fixpoint joinComma (pieces : list string) : string :=
  match pieces with
  | [] => ""
  | [piece] => piece
  | piece :: rest => piece ++ "," ++ joinComma rest
  end.

(** [Array.prototype.includes] on strings. *)
Definition arrayIncludes (l : list string) (x : string) : bool :=
  existsb (String.eqb x) l.

(** What [(user as any)] may carry beyond the typed identity: the [groups]
    array and the ['custom:roles'] attribute. *)
Record UntypedUser := mkUntypedUser {
  groups : option (list string);
  customRoles : option string
}.

Module AuthServiceRoles.
Section WithUntypedView.
Variable untyped : AuthUser -> UntypedUser.

(** [this.currentUser()] is computed from the signal. *)
Definition currentUser (w : World) : option AuthUser := user (authStateSignal w).

Definition hasRole (role : string) (w : World) : bool :=
  match currentUser w with
  | None => false
  | Some u =>
      let userGroups := default [] (groups (untyped u)) in
      let userRoles := default [] (splitComma <$> customRoles (untyped u)) in
      arrayIncludes userGroups role || arrayIncludes userRoles role
  end.

Definition hasAnyRole (roles : list string) (w : World) : bool :=
  existsb (fun role => hasRole role w) roles.

End WithUntypedView.
End AuthServiceRoles.

(** ** What the interceptor asks of the service ([refreshToken]) *)

Module AuthInterceptorService.
Section WithProvider.
Variable P : Amplify.Provider.

(** [refreshSession().then(() => getAccessToken().then(...))]: the value
    the [Refreshed] event of a leader carries. *)
Definition refreshToken : Async (option string) :=
  AuthService.refreshSession P ;;
  AuthService.getAccessToken P.


End WithProvider.
End AuthInterceptorService.

(** ** The service before the Session record ([auth.service.ts.old]) *)

Module OldAuthService.

Record State := mkState {
  isAuthenticatedSubject : bool;
  currentUserSubject : option AuthUser;
  navigations : list Navigation;
  clock : nat
}.

Definition initialState : State :=
  {| isAuthenticatedSubject := false; currentUserSubject := None;
     navigations := []; clock := 0 |}.

Definition sdk {A} (f : nat -> Settled A) : Task.T A :=
  fun c => (f (clock c),
            {| isAuthenticatedSubject := isAuthenticatedSubject c;
               currentUserSubject := currentUserSubject c;
               navigations := navigations c;
               clock := S (clock c) |}).

Definition next (b : bool) (u : option AuthUser) : Task.T unit :=
  Task.exec (fun c =>
    {| isAuthenticatedSubject := b;
       currentUserSubject := u;
       navigations := navigations c;
       clock := clock c |}).

Definition navigate (cmds : list string) : Task.T unit :=
  Task.exec (fun c =>
    {| isAuthenticatedSubject := isAuthenticatedSubject c;
       currentUserSubject := currentUserSubject c;
       navigations := (navigations c ++ [mkNavigation cmds []])%list;
       clock := clock c |}).

Section WithProvider.
Variable P : Amplify.Provider.

Definition checkAuthStatus : Task.T bool :=
  Task.tryCatch
    (Task.bind (sdk (Amplify.getCurrentUser P)) (fun u =>
     Task.bind (next true (Some u)) (fun _ =>
     Task.ret true)))
    (fun _ =>
     Task.bind (next false None) (fun _ =>
     Task.ret false)).

Definition logout : Task.T unit :=
  Task.tryCatch
    (Task.bind (sdk (Amplify.signOut P)) (fun _ =>
     Task.bind (next false None) (fun _ =>
     navigate ["/landing"])))
    (fun _ =>
     Task.bind (next false None) (fun _ =>
     navigate ["/landing"])).

Definition setAuthenticated (u : AuthUser) : Task.T unit := next true (Some u).

(** The constructor only checks the status. *)
Definition construct : State := snd (checkAuthStatus initialState).

End WithProvider.

(** [get isAuthenticated()] and [get currentUser()] *)
Definition isAuthenticated (c : State) : bool := isAuthenticatedSubject c.
Definition currentUser (c : State) : option AuthUser := currentUserSubject c.

End OldAuthService.

(** What the old service would see of the world of the new one. *)
Definition legacyView (w : World) : OldAuthService.State :=
  {| OldAuthService.isAuthenticatedSubject := isAuthenticatedSubject w;
     OldAuthService.currentUserSubject := currentUserSubject w;
     OldAuthService.navigations := navigations w;
     OldAuthService.clock := clock w |}.

(** ** LoginComponent *)

Module LoginComponent.

Record Fields := mkFields {
  isCheckingAuth : bool;
  isRedirecting : bool
}.

(** The field initialisers. *)
Definition initialFields : Fields :=
  {| isCheckingAuth := true; isRedirecting := false |}.

Definition redirecting (c : Fields) : Fields :=
  {| isCheckingAuth := isCheckingAuth c; isRedirecting := true |}.

(** [this.router.navigate(['/auth'])] *)
Definition redirectToDashboard : Async unit := navigate ["/auth"] [].

Section WithProvider.
Variable P : Amplify.Provider.

(** The [user] that [getCurrentUser] resolves to is an object, hence
    truthy; the [finally] block reads [isRedirecting] as the [try] block
    left it. *)
Definition checkCurrentAuthStatus (c : Fields) : Async Fields :=
  do c1 <- tryCatch
             (do u <- sdk (Amplify.getCurrentUser P);
              AuthService.setAuthenticated u ;;
              redirectToDashboard ;;
              ret (redirecting c))
             (fun _ => ret c);
  ret (if negb (isRedirecting c1)
       then {| isCheckingAuth := false; isRedirecting := isRedirecting c1 |}
       else c1).

End WithProvider.

(** The subscriber given to [authenticatorService.subscribe]: it acts on
    [state.authStatus === 'authenticated'] only. *)
Definition onAuthenticatorState (authStatus : string) (u : AuthUser) (c : Fields)
    : Async Fields :=
  if String.eqb authStatus "authenticated" then
    AuthService.setAuthenticated u ;;
    redirectToDashboard ;;
    ret (redirecting c)
  else ret c.

End LoginComponent.

(** ** TodosComponent *)

Module TodosComponent.

Record Todo := mkTodo { id : string; content : string }.

(** What [generateClient()] returns, as far as the component looks:
    [client.models] and [client.models['Todo']]. *)
Record Client := mkClient { hasModels : bool; hasTodoModel : bool }.

Inductive ClientCall :=
| ListCall
| CreateCall (content : string)
| DeleteCall (id : string).

(** The generated data client: the n-th call of the component answers as a
    function of n.  [list] resolves to [{ data: items }], where [items]
    may be null. *)
Record DataClient := mkDataClient {
  Todo_list : nat -> Settled (option (list Todo));
  Todo_create : string -> nat -> Settled unit;
  Todo_delete : string -> nat -> Settled unit
}.

Record Fields := mkFields {
  todos : list Todo;
  amplifyConfigured : bool;
  currentUser : option AuthUser;
  (* the calls made on the data client, oldest first *)
  clientCalls : list ClientCall;
  (* window.alert and window.prompt *)
  alerts : list string;
  prompts : nat
}.

Definition initialFields : Fields :=
  {| todos := []; amplifyConfigured := false; currentUser := None;
     clientCalls := []; alerts := []; prompts := 0 |}.

Definition NOT_AVAILABLE : string :=
  "Todo functionality is not available. Amplify backend needs to be configured.".

Definition setTodos (l : list Todo) : Task.T unit :=
  Task.exec (fun c =>
    {| todos := l; amplifyConfigured := amplifyConfigured c;
       currentUser := currentUser c; clientCalls := clientCalls c;
       alerts := alerts c; prompts := prompts c |}).

Definition setConfigured (b : bool) (c : Fields) : Fields :=
  {| todos := todos c; amplifyConfigured := b;
     currentUser := currentUser c; clientCalls := clientCalls c;
     alerts := alerts c; prompts := prompts c |}.

Definition setCurrentUser (u : option AuthUser) (c : Fields) : Fields :=
  {| todos := todos c; amplifyConfigured := amplifyConfigured c;
     currentUser := u; clientCalls := clientCalls c;
     alerts := alerts c; prompts := prompts c |}.

Definition alert (msg : string) : Task.T unit :=
  Task.exec (fun c =>
    {| todos := todos c; amplifyConfigured := amplifyConfigured c;
       currentUser := currentUser c; clientCalls := clientCalls c;
       alerts := (alerts c ++ [msg])%list; prompts := prompts c |}).

(** [window.prompt('Todo content')] answers [answer]: null when the user
    cancels. *)
Definition prompt (answer : option string) : Task.T (option string) :=
  fun c =>
    (Fulfilled answer,
     {| todos := todos c; amplifyConfigured := amplifyConfigured c;
        currentUser := currentUser c; clientCalls := clientCalls c;
        alerts := alerts c; prompts := S (prompts c) |}).

(** A call on the data client: logged, and answered for its number. *)
Definition call {A} (what : ClientCall) (f : nat -> Settled A) : Task.T A :=
  fun c =>
    (f (length (clientCalls c)),
     {| todos := todos c; amplifyConfigured := amplifyConfigured c;
        currentUser := currentUser c;
        clientCalls := (clientCalls c ++ [what])%list;
        alerts := alerts c; prompts := prompts c |}).

(** [checkAmplifyConfiguration]: [generated] is what [generateClient()] does
    this time. *)
Definition checkAmplifyConfiguration (generated : Settled Client) (c : Fields)
    : Fields :=
  match generated with
  | Fulfilled client => setConfigured (hasModels client && hasTodoModel client) c
  | Rejected _ => setConfigured false c
  end.

Section WithClient.
Variable D : DataClient.

Definition listTodos : Task.T unit :=
  fun c =>
    if negb (amplifyConfigured c) then (Fulfilled tt, c)
    else
      Task.tryCatch
        (Task.bind (call ListCall (Todo_list D)) (fun items =>
         setTodos (default [] items)))
        (fun _ => Task.ret tt) c.

(** [this.listTodos()] is not awaited; it never rejects, and is run to its
    end here. *)
Definition createTodo (answer : option string) : Task.T unit :=
  fun c =>
    if negb (amplifyConfigured c) then alert NOT_AVAILABLE c
    else
      Task.tryCatch
        (Task.bind (prompt answer) (fun content =>
         match content with
         | Some text =>
             if truthy text then
               Task.bind (call (CreateCall text) (Todo_create D text)) (fun _ =>
               Task.tryCatch listTodos (fun _ => Task.ret tt))
             else Task.ret tt
         | None => Task.ret tt
         end))
        (fun _ => Task.ret tt) c.

Definition deleteTodo (todoId : string) : Task.T unit :=
  fun c =>
    if negb (amplifyConfigured c) then (Fulfilled tt, c)
    else
      Task.tryCatch
        (Task.bind (call (DeleteCall todoId) (Todo_delete D todoId)) (fun _ =>
         Task.tryCatch listTodos (fun _ => Task.ret tt)))
        (fun _ => Task.ret tt) c.

(** [ngOnInit]: the subscription to [currentUser$] delivers the current
    value at once. *)
Definition ngOnInit (w : World) (generated : Settled Client) : Task.T unit :=
  fun c =>
    listTodos
      (checkAmplifyConfiguration generated
         (setCurrentUser (currentUserSubject w) c)).

End WithClient.

Definition trackByTodoId (index : nat) (todo : Todo) : string := id todo.

End TodosComponent.

(** ** DashboardComponent *)

Module DashboardComponent.

(** [this.router.url !== '/auth' && this.router.url !== '/auth/dashboard'] *)
Definition isNestedRouteActive (routerUrl : string) : bool :=
  negb (String.eqb routerUrl "/auth") && negb (String.eqb routerUrl "/auth/dashboard").

End DashboardComponent.

(** ** Views of the Session used in the statements *)


(** The Session with the spinner off and, possibly, a message. *)
Definition settledState (a : AuthState) (msg : option string) : AuthState :=
  {| isAuthenticated := isAuthenticated a;
     user := user a;
     isLoading := false;
     error := msg;
     sessionExpiry := sessionExpiry a |}.

(** The Session [updateAuthState(false, null)] publishes: unauthenticated,
    with the spinner as it was. *)
Definition signedOutState (loading : bool) : AuthState :=
  {| isAuthenticated := false; user := None; isLoading := loading;
     error := None; sessionExpiry := None |}.

(** The two copies of the Session agree. *)
Definition Agree (w : World) : Prop := authStateSignal w = authStateSubject w.

(** The browser storage holds [v] under [k]. *)
Definition Stored (k : string) (v : option string) (w : World) : Prop :=
  sessionStorage w !! k = v.

(** ** What a user can do on the todos page *)

Inductive TodosAction :=
| ListTodos
| CreateTodo (answer : option string)
| DeleteTodo (todoId : string).

Definition runTodosAction (D : TodosComponent.DataClient) (a : TodosAction)
    : Task.T unit :=
  match a with
  | ListTodos => TodosComponent.listTodos D
  | CreateTodo answer => TodosComponent.createTodo D answer
  | DeleteTodo todoId => TodosComponent.deleteTodo D todoId
  end.

Definition runTodosActions (D : TodosComponent.DataClient)
    (actions : list TodosAction) (c : TodosComponent.Fields)
    : TodosComponent.Fields :=
  foldl (fun c a => snd (runTodosAction D a c)) c actions.

(** The alerts a sequence of actions raises on a page that is not
    configured: one for each attempt to create. *)
Definition refusedCreates (actions : list TodosAction) : list string :=
  omap (fun a => match a with
                 | CreateTodo _ => Some TodosComponent.NOT_AVAILABLE
                 | _ => None
                 end) actions.

(** What the list shows after a mutation that went through: the data of
    the list call that follows, or what it showed before when that call
    fails. *)
Definition refreshed (D : TodosComponent.DataClient) (n : nat)
    (before : list TodosComponent.Todo) : list TodosComponent.Todo :=
  match TodosComponent.Todo_list D n with
  | Fulfilled items => default [] items
  | Rejected _ => before
  end.

(** ** The methods the old and the new service share *)

Inductive LegacyOp :=
| LegacyCheckAuthStatus
| LegacyLogout
| LegacySetAuthenticated (u : AuthUser).

Definition runLegacyNew (P : Amplify.Provider) (op : LegacyOp) (w : World) : World :=
  match op with
  | LegacyCheckAuthStatus => snd (AuthService.checkAuthStatus P w)
  | LegacyLogout => snd (AuthService.logout P w)
  | LegacySetAuthenticated u => snd (AuthService.setAuthenticated u w)
  end.

Definition runLegacyOld (P : Amplify.Provider) (op : LegacyOp)
    (c : OldAuthService.State) : OldAuthService.State :=
  match op with
  | LegacyCheckAuthStatus => snd (OldAuthService.checkAuthStatus P c)
  | LegacyLogout => snd (OldAuthService.logout P c)
  | LegacySetAuthenticated u => snd (OldAuthService.setAuthenticated u c)
  end.

(** * Properties of AuthService *)

Module AuthServiceProofs.
Import AuthService.

Ltac run_async :=
  unfold signOut, signIn, checkAuthStatus, logout, refreshSession,
    getAccessToken, updateAuthState, getSessionExpiry, checkSessionExpiry,
    clearSessionTimer, setupSessionRefresh, handleAuthError, setError,
    setLoading, setAuthenticated, getReturnUrl, setReturnUrl, navigate,
    tryFinally, tryCatch, bind, exec, sdk, ret, throw; simpl.

(** ** The model at work *)

Example construct_signed_in :
  authStateSubject (construct Scenario.signedIn)
  = {| isAuthenticated := true; user := Some Scenario.alice; isLoading := false;
       error := None; sessionExpiry := Some 1900000000000%Z |}
  /\ sessionRefreshTimer (construct Scenario.signedIn) = Some 0.
Proof. vm_compute. by split. Qed.

Example construct_anonymous :
  authStateSubject (construct Scenario.anonymous) = defaultAuthState
  /\ isAuthenticatedSubject (construct Scenario.anonymous) = false.
Proof. vm_compute. by split. Qed.

Example userMessage_by_code :
  userMessage (mkProviderError "" "NotAuthorizedException")
  = "Invalid email or password.".
Proof. reflexivity. Qed.

Example signIn_navigates_to_default :
  navigations (snd (signIn Scenario.signedIn (mkSignInInput "alice" "pw")
                      (construct Scenario.signedIn)))
  = [mkNavigation ["/dashboard"] []].
Proof. vm_compute. reflexivity. Qed.

(** ** The return-URL slot *)

Lemma getReturnUrl_after_set (w : World) (u : string) :
  getReturnUrl (snd (setReturnUrl u w))
  = (Fulfilled (or_else u "/dashboard"),
     with_sessionStorage (delete "returnUrl" (sessionStorage w)) w).
Proof.
  run_async. rewrite lookup_insert_eq. f_equal.
  unfold with_sessionStorage; simpl. f_equal.
  apply delete_insert_eq.
Qed.

Lemma getReturnUrl_empty (w : World) :
  sessionStorage w !! "returnUrl" = None ->
  getReturnUrl w = (Fulfilled "/dashboard", w).
Proof.
  intros H. run_async. rewrite H. f_equal.
  destruct w; unfold with_sessionStorage; simpl in *. f_equal.
  by apply delete_id.
Qed.

Lemma or_else_truthy (a b : string) : a <> "" -> or_else a b = a.
Proof.
  intros H. unfold or_else, truthy.
  destruct (String.eqb_spec a ""); [contradiction | reflexivity].
Qed.

(** C8, as stated, fails for the empty URL: [setReturnUrl("")] followed by a
    consume does not return the stored value. *)
Lemma returnUrl_empty_string_not_returned :
  fst (getReturnUrl (snd (setReturnUrl "" initialWorld))) <> Fulfilled "".
Proof. vm_compute. discriminate. Qed.

(** C8 (amended): the return-URL slot is single-slot storage.  After
    [setReturnUrl u] with [u] non-empty the next consume returns [u] and
    clears the slot, so that a second consume returns "/dashboard"; when
    the slot is empty a consume returns "/dashboard". *)
Theorem returnUrl_single_slot (w : World) (u : string) :
  u <> "" ->
  let w1 := snd (setReturnUrl u w) in
  let w2 := snd (getReturnUrl w1) in
  fst (getReturnUrl w1) = Fulfilled u
  /\ sessionStorage w2 !! "returnUrl" = None
  /\ fst (getReturnUrl w2) = Fulfilled "/dashboard"
  /\ (forall w0, sessionStorage w0 !! "returnUrl" = None ->
        getReturnUrl w0 = (Fulfilled "/dashboard", w0)).
Proof.
  intros Hu w1 w2. subst w1 w2.
  rewrite getReturnUrl_after_set, (or_else_truthy _ _ Hu).
  cbn [fst snd].
  assert (Hnone : sessionStorage
            (with_sessionStorage (delete "returnUrl" (sessionStorage w)) w)
            !! "returnUrl" = None) by apply lookup_delete_eq.
  split; [reflexivity |]. split; [exact Hnone |].
  split; [| exact getReturnUrl_empty].
  by rewrite (getReturnUrl_empty _ Hnone).
Qed.

Lemma returnUrl_single_slot_witness :
  "/auth/todos" <> ""
  /\ fst (getReturnUrl (snd (setReturnUrl "/auth/todos" initialWorld)))
     = Fulfilled "/auth/todos".
Proof.
  split; [discriminate |].
  apply (returnUrl_single_slot initialWorld "/auth/todos"). discriminate.
Defined.

(** ** signOut *)

(** When the remote sign-out succeeds the Session is the default one again
    and the refresh timer is cancelled. *)
Lemma signOut_remote_success (P : Amplify.Provider) (w : World) :
  Amplify.signOut P (clock w) = Fulfilled tt ->
  let w' := snd (signOut P w) in
  fst (signOut P w) = Fulfilled tt
  /\ authStateSignal w' = defaultAuthState
  /\ authStateSubject w' = defaultAuthState
  /\ sessionRefreshTimer w' = None
  /\ (forall id, sessionRefreshTimer w = Some id -> subscriptions w' !! id = None)
  /\ navigations w' = (navigations w ++ [mkNavigation ["/login"] []])%list.
Proof.
  intros H. run_async. rewrite H. simpl.
  destruct (sessionRefreshTimer w) as [id|] eqn:Et; simpl;
    split_and!; try done.
  intros id' [= <-]. apply lookup_delete_eq.
Qed.

(** When the remote sign-out rejects, [signOut] rejects too: the Session
    keeps its authentication fields and gets an error message, and the
    refresh timer is left running. *)
Lemma signOut_remote_failure (P : Amplify.Provider) (w : World) (e : ProviderError) :
  Amplify.signOut P (clock w) = Rejected e ->
  let w' := snd (signOut P w) in
  let a := authStateSignal w in
  fst (signOut P w) = Rejected e
  /\ authStateSubject w' =
       {| isAuthenticated := isAuthenticated a; user := user a; isLoading := false;
          error := Some (userMessage e); sessionExpiry := sessionExpiry a |}
  /\ authStateSignal w' = authStateSubject w'
  /\ sessionRefreshTimer w' = sessionRefreshTimer w
  /\ subscriptions w' = subscriptions w
  /\ navigations w' = navigations w.
Proof.
  intros H. run_async. rewrite H. simpl. by split_and!.
Qed.

(** C2 (code defect): with a user signed in and the refresh timer running,
    a [signOut()] whose remote call fails leaves the Session authenticated,
    with an error message set, and the timer subscribed. *)
Theorem signOut_keeps_session_when_remote_fails :
  let w := construct Scenario.signedIn in
  let w' := snd (signOut Scenario.signedIn w) in
  fst (signOut Scenario.signedIn w) = Rejected Scenario.networkError
  /\ isAuthenticated (authStateSubject w') = true
  /\ user (authStateSubject w') = Some Scenario.alice
  /\ error (authStateSubject w') = Some "An unexpected error occurred. Please try again."
  /\ authStateSubject w' <> defaultAuthState
  /\ sessionRefreshTimer w' = Some 0
  /\ subscriptions w' !! 0 = Some (mkTimerSubscription 0 0).
Proof.
  vm_compute. repeat split; try reflexivity. discriminate.
Qed.

(** ** checkAuthStatus and setAuthenticated *)

(** C6, as stated, fails: an identity is returned and [checkAuthStatus]
    resolves to [true], yet the Session is still the unauthenticated one. *)
Lemma checkAuthStatus_session_not_authenticated :
  let r := checkAuthStatus Scenario.signedIn initialWorld in
  fst r = Fulfilled true
  /\ isAuthenticated (authStateSubject (snd r)) <> true
  /\ user (authStateSubject (snd r)) = None.
Proof. vm_compute. repeat split; try reflexivity. discriminate. Qed.

(** C6 (amended): [checkAuthStatus] never rejects.  It resolves to [true]
    with the legacy subjects set to (true, identity) when the identity fetch
    resolves, and to [false] with the legacy subjects set to (false, null)
    when the fetch rejects; the Session record is left as it was. *)
Theorem checkAuthStatus_never_rejects (P : Amplify.Provider) (w : World) :
  let w' := snd (checkAuthStatus P w) in
  (exists b, fst (checkAuthStatus P w) = Fulfilled b)
  /\ (forall u, Amplify.getCurrentUser P (clock w) = Fulfilled u ->
        fst (checkAuthStatus P w) = Fulfilled true
        /\ isAuthenticatedSubject w' = true
        /\ currentUserSubject w' = Some u)
  /\ (forall e, Amplify.getCurrentUser P (clock w) = Rejected e ->
        fst (checkAuthStatus P w) = Fulfilled false
        /\ isAuthenticatedSubject w' = false
        /\ currentUserSubject w' = None)
  /\ authStateSignal w' = authStateSignal w
  /\ authStateSubject w' = authStateSubject w.
Proof.
  run_async.
  destruct (Amplify.getCurrentUser P (clock w)) as [u|e]; simpl;
    split_and!; eauto; intros ? [=]; subst; auto.
Qed.

Lemma checkAuthStatus_never_rejects_witness :
  fst (checkAuthStatus Scenario.anonymous initialWorld) = Fulfilled false.
Proof.
  apply (checkAuthStatus_never_rejects Scenario.anonymous initialWorld)
    with (e := Scenario.notSignedIn).
  reflexivity.
Defined.

(** ** Invariants through the combinators *)

Section PreservesLemmas.
Variable I : World -> Prop.

Lemma preserves_ret {A} (a : A) : Preserves I (ret a).
Proof. intros w H. exact H. Qed.

Lemma preserves_throw {A} (e : ProviderError) : Preserves I (@throw A e).
Proof. intros w H. exact H. Qed.

Lemma preserves_exec (f : World -> World) :
  (forall w, I w -> I (f w)) -> Preserves I (exec f).
Proof. intros Hf w H. apply Hf, H. Qed.

Lemma preserves_bind {A B} (m : Async A) (k : A -> Async B) :
  Preserves I m -> (forall a, Preserves I (k a)) -> Preserves I (bind m k).
Proof.
  intros Hm Hk w H. unfold bind. specialize (Hm w H).
  destruct (m w) as [[a|e] w1]; simpl in *; [by apply Hk | done].
Qed.

Lemma preserves_tryCatch {A} (m : Async A) (h : ProviderError -> Async A) :
  Preserves I m -> (forall e, Preserves I (h e)) -> Preserves I (tryCatch m h).
Proof.
  intros Hm Hh w H. unfold tryCatch. specialize (Hm w H).
  destruct (m w) as [[a|e] w1]; simpl in *; [done | by apply Hh].
Qed.

Lemma preserves_tryFinally {A} (m : Async A) (f : World -> World) :
  Preserves I m -> (forall w, I w -> I (f w)) -> Preserves I (tryFinally m f).
Proof.
  intros Hm Hf w H. unfold tryFinally. specialize (Hm w H).
  destruct (m w) as [r w1]; simpl in *. by apply Hf.
Qed.

Lemma preserves_sdk {A} (f : nat -> Settled A) :
  (forall n w, I w -> I (with_clock n w)) -> Preserves I (sdk f).
Proof. intros Hc w H. unfold sdk; simpl. by apply Hc. Qed.

Lemma preserves_navigate cmds qp :
  (forall l w, I w -> I (with_navigations l w)) -> Preserves I (navigate cmds qp).
Proof. intros Hn w H. unfold navigate, exec; simpl. by apply Hn. Qed.

Lemma preserves_if {A} (c : bool) (a b : Async A) :
  Preserves I a -> Preserves I b -> Preserves I (if c then a else b).
Proof. by destruct c. Qed.

Lemma preserves_runOps (P : Amplify.Provider) :
  (forall op w, I w -> I (runOp P op w)) ->
  forall ops w, I w -> I (runOps P ops w).
Proof.
  intros Hop ops. induction ops as [|op ops IH]; intros w H; simpl; [done |].
  apply IH, Hop, H.
Qed.

End PreservesLemmas.

(** ** The Session invariant *)

Lemma WorldInv_frame (w w' : World) :
  authStateSignal w' = authStateSignal w ->
  authStateSubject w' = authStateSubject w ->
  isAuthenticatedSubject w' = isAuthenticatedSubject w ->
  currentUserSubject w' = currentUserSubject w ->
  WorldInv w -> WorldInv w'.
Proof.
  unfold WorldInv, LegacyInv. intros -> -> -> ->. done.
Qed.

Lemma WorldInv_publish (a : AuthState) (w : World) :
  SessionInv a -> WorldInv w -> WorldInv (publish a w).
Proof. intros Ha (_ & _ & Hl). by split_and!. Qed.

Lemma WorldInv_setLoadingNow (b : bool) (w : World) :
  WorldInv w -> WorldInv (setLoadingNow b w).
Proof.
  intros H. apply WorldInv_publish; [| exact H]. by destruct H as (Hs & _).
Qed.

Lemma WorldInv_legacy_in (u : AuthUser) (w : World) :
  WorldInv w -> WorldInv (with_legacy true (Some u) w).
Proof.
  intros (Hs & Hj & _). split_and!; try done.
Qed.

Lemma WorldInv_legacy_out (w : World) :
  WorldInv w -> WorldInv (with_legacy false None w).
Proof.
  intros (Hs & Hj & _). split_and!; try done.
Qed.

Lemma WorldInv_clock n w : WorldInv w -> WorldInv (with_clock n w).
Proof. by apply WorldInv_frame. Qed.

Lemma WorldInv_navigations l w : WorldInv w -> WorldInv (with_navigations l w).
Proof. by apply WorldInv_frame. Qed.

Lemma WorldInv_timer t subs k w : WorldInv w -> WorldInv (with_timer t subs k w).
Proof. by apply WorldInv_frame. Qed.

Lemma WorldInv_sessionStorage m w : WorldInv w -> WorldInv (with_sessionStorage m w).
Proof. by apply WorldInv_frame. Qed.

Lemma WorldInv_now t w : WorldInv w -> WorldInv (with_now t w).
Proof. by apply WorldInv_frame. Qed.

Lemma WorldInv_isInitialized b w : WorldInv w -> WorldInv (with_isInitialized b w).
Proof. by apply WorldInv_frame. Qed.

Lemma WorldInv_initial : WorldInv initialWorld.
Proof.
  unfold WorldInv, SessionInv, LegacyInv; simpl.
  split_and!; try done.
Qed.

Create HintDb preserves.

#[local] Hint Resolve preserves_ret preserves_throw preserves_bind
  preserves_tryCatch preserves_tryFinally preserves_if preserves_exec
  preserves_sdk preserves_navigate : preserves.
#[local] Hint Resolve WorldInv_clock WorldInv_navigations WorldInv_timer
  WorldInv_sessionStorage WorldInv_now WorldInv_isInitialized
  WorldInv_setLoadingNow WorldInv_legacy_in WorldInv_legacy_out : preserves.

Section SessionInvariant.
Variable P : Amplify.Provider.

Lemma inv_setLoading b : Preserves WorldInv (setLoading b).
Proof. unfold setLoading. auto with preserves. Qed.

Lemma inv_setError msg : Preserves WorldInv (setError msg).
Proof.
  apply preserves_exec. intros w H. apply WorldInv_publish; [| exact H].
  by destruct H as (Hs & _).
Qed.

Lemma inv_handleAuthError e op : Preserves WorldInv (handleAuthError e op).
Proof. apply inv_setError. Qed.

Lemma inv_getSessionExpiry : Preserves WorldInv (getSessionExpiry P).
Proof. unfold getSessionExpiry. auto 10 with preserves. Qed.

Lemma inv_checkSessionExpiry : Preserves WorldInv (checkSessionExpiry P).
Proof.
  unfold checkSessionExpiry.
  apply preserves_tryCatch; [| intros _; apply preserves_ret].
  apply preserves_bind; [apply inv_getSessionExpiry |].
  intros _. apply preserves_ret.
Qed.

Lemma inv_updateAuthState_in u : Preserves WorldInv (updateAuthState P true (Some u)).
Proof.
  intros w H. unfold updateAuthState.
  apply (preserves_bind WorldInv); [apply inv_getSessionExpiry | | exact H].
  intros expiry. apply preserves_exec. intros w1 H1.
  apply WorldInv_publish; [| exact H1].
  split; simpl; [eauto | discriminate].
Qed.

Lemma inv_updateAuthState_out : Preserves WorldInv (updateAuthState P false None).
Proof.
  intros w H. unfold updateAuthState, bind, ret, exec; simpl.
  apply WorldInv_publish; [| exact H].
  split; simpl; [discriminate | done].
Qed.

Lemma inv_clearSessionTimer : Preserves WorldInv clearSessionTimer.
Proof.
  apply preserves_exec. intros w H.
  destruct (sessionRefreshTimer w); auto with preserves.
Qed.

Lemma inv_setupSessionRefresh : Preserves WorldInv setupSessionRefresh.
Proof.
  unfold setupSessionRefresh.
  apply preserves_bind; [apply inv_clearSessionTimer |].
  intros _. auto with preserves.
Qed.

Lemma inv_getReturnUrl : Preserves WorldInv getReturnUrl.
Proof. intros w H. unfold getReturnUrl; simpl. auto with preserves. Qed.

Lemma inv_handleSignInNextStep step : Preserves WorldInv (handleSignInNextStep step).
Proof. destruct step; simpl; auto with preserves. Qed.

#[local] Hint Resolve inv_setLoading inv_setError inv_handleAuthError
  inv_getSessionExpiry inv_checkSessionExpiry inv_updateAuthState_in
  inv_updateAuthState_out inv_clearSessionTimer inv_setupSessionRefresh
  inv_getReturnUrl inv_handleSignInNextStep : preserves.

Lemma inv_refreshSession : Preserves WorldInv (refreshSession P).
Proof.
  unfold refreshSession. apply preserves_tryCatch; [| auto with preserves].
  apply preserves_bind; [auto with preserves |].
  intros session. destruct (tokens session); auto 10 with preserves.
Qed.

Lemma inv_signOut : Preserves WorldInv (signOut P).
Proof. unfold signOut. auto 20 with preserves. Qed.

Lemma inv_signIn c : Preserves WorldInv (signIn P c).
Proof. unfold signIn. auto 30 with preserves. Qed.

Lemma inv_onRefreshTimer : Preserves WorldInv (onRefreshTimer P).
Proof.
  unfold onRefreshTimer. apply preserves_tryCatch.
  - apply inv_refreshSession.
  - intros _. apply inv_signOut.
Qed.

Lemma inv_runOp (op : Op) (w : World) : WorldInv w -> WorldInv (runOp P op w).
Proof.
  destruct op; simpl; try (revert w).
  - unfold checkAuthStatus. change (Preserves WorldInv
      (tryCatch (do u <- sdk (Amplify.getCurrentUser P);
                 exec (with_legacy true (Some u)) ;; ret true)
                (fun _ => exec (with_legacy false None) ;; ret false))).
    auto 20 with preserves.
  - change (Preserves WorldInv (logout P)). unfold logout. auto 20 with preserves.
  - change (Preserves WorldInv (setAuthenticated u)).
    unfold setAuthenticated. auto with preserves.
  - intros w H. exact H.
  - apply inv_signIn.
  - apply inv_signOut.
  - change (Preserves WorldInv (signUp P userDetails)).
    unfold signUp. auto 20 with preserves.
  - change (Preserves WorldInv (confirmSignUp P name confirmationCode)).
    unfold confirmSignUp. auto 20 with preserves.
  - change (Preserves WorldInv (resendConfirmationCode P name)).
    unfold resendConfirmationCode. auto 20 with preserves.
  - change (Preserves WorldInv (resetPassword P name)).
    unfold resetPassword. auto 20 with preserves.
  - change (Preserves WorldInv (confirmPasswordReset P name confirmationCode newPassword)).
    unfold confirmPasswordReset. auto 20 with preserves.
  - apply inv_refreshSession.
  - change (Preserves WorldInv (getAccessToken P)).
    unfold getAccessToken. auto 20 with preserves.
  - change (Preserves WorldInv (checkAuthenticationState P)).
    unfold checkAuthenticationState. auto 20 with preserves.
  - change (Preserves WorldInv (setReturnUrl url)).
    unfold setReturnUrl. auto with preserves.
  - change (Preserves WorldInv (clearAuthState P)).
    unfold clearAuthState. auto with preserves.
  - intros w H. unfold timerFire.
    destruct (subscriptions w !! id) as [sub|]; [| exact H].
    destruct (nextDue sub =? now w)%Z; [| exact H].
    apply inv_onRefreshTimer. auto with preserves.
  - intros w H. unfold elapse, exec; simpl. auto with preserves.
Qed.

Lemma inv_construct : WorldInv (construct P).
Proof.
  unfold construct.
  apply inv_setupSessionRefresh.
  assert (Hinit : Preserves WorldInv (initializeAuth P)).
  { unfold initializeAuth. apply preserves_tryFinally; [auto 20 with preserves |].
    auto with preserves. }
  apply Hinit.
  apply (inv_runOp CheckAuthStatus), WorldInv_initial.
Qed.

End SessionInvariant.

(** C7: every operation of the service — each public method, and each
    firing of the refresh timer — keeps the Session invariant:
    [isAuthenticated = true] implies a user is present, [isAuthenticated =
    false] implies user and sessionExpiry are absent.  It holds of both
    copies of the Session record and of the legacy subjects, from the
    constructor on. *)
Theorem session_invariant_preserved (P : Amplify.Provider) (op : Op) (w : World) :
  WorldInv w ->
  WorldInv (runOp P op w)
  /\ WorldInv (construct P)
  /\ (forall ops, WorldInv (runOps P ops (construct P))).
Proof.
  intros H. split_and!.
  - by apply inv_runOp.
  - apply inv_construct.
  - intros ops. apply preserves_runOps; [apply inv_runOp | apply inv_construct].
Qed.

Lemma session_invariant_preserved_witness :
  WorldInv initialWorld
  /\ WorldInv (runOp Scenario.signedIn (SignIn (mkSignInInput "alice" "pw")) initialWorld).
Proof.
  split; [exact WorldInv_initial |].
  apply (session_invariant_preserved Scenario.signedIn
           (SignIn (mkSignInInput "alice" "pw")) initialWorld WorldInv_initial).
Defined.

(** ** The refresh timer *)

Lemma TimerInv_frame (w w' : World) :
  subscriptions w' = subscriptions w ->
  sessionRefreshTimer w' = sessionRefreshTimer w ->
  TimerInv w -> TimerInv w'.
Proof. unfold TimerInv. intros -> ->. done. Qed.

Lemma TimerInv_legacy b u w : TimerInv w -> TimerInv (with_legacy b u w).
Proof. by apply TimerInv_frame. Qed.

Lemma TimerInv_publish a w : TimerInv w -> TimerInv (publish a w).
Proof. by apply TimerInv_frame. Qed.

Lemma TimerInv_setLoadingNow b w : TimerInv w -> TimerInv (setLoadingNow b w).
Proof. by apply TimerInv_frame. Qed.

Lemma TimerInv_clock n w : TimerInv w -> TimerInv (with_clock n w).
Proof. by apply TimerInv_frame. Qed.

Lemma TimerInv_navigations l w : TimerInv w -> TimerInv (with_navigations l w).
Proof. by apply TimerInv_frame. Qed.

Lemma TimerInv_sessionStorage m w : TimerInv w -> TimerInv (with_sessionStorage m w).
Proof. by apply TimerInv_frame. Qed.

Lemma TimerInv_now t w : TimerInv w -> TimerInv (with_now t w).
Proof. by apply TimerInv_frame. Qed.

Lemma TimerInv_isInitialized b w : TimerInv w -> TimerInv (with_isInitialized b w).
Proof. by apply TimerInv_frame. Qed.

Lemma TimerInv_initial : TimerInv initialWorld.
Proof. intros id [sub Hsub]. simpl in Hsub. by rewrite lookup_empty in Hsub. Qed.

(** With the invariant, a service that holds no timer has no live one. *)
Lemma TimerInv_none (w : World) :
  TimerInv w -> sessionRefreshTimer w = None -> subscriptions w = ∅.
Proof.
  intros H Hnone. apply map_empty. intros id.
  destruct (subscriptions w !! id) as [sub|] eqn:E; [| done].
  specialize (H id (ex_intro _ sub E)). congruence.
Qed.

Lemma TimerInv_size (w : World) : TimerInv w -> size (subscriptions w) <= 1.
Proof.
  intros H. destruct (sessionRefreshTimer w) as [id|] eqn:Et.
  - rewrite <- size_dom, <- (size_singleton (C := gset nat) id).
    apply subseteq_size. intros id' Hin.
    apply elem_of_dom in Hin. specialize (H id' Hin).
    rewrite Et in H. injection H as <-. by apply elem_of_singleton.
  - rewrite (TimerInv_none w H Et), map_size_empty. lia.
Qed.

Lemma clearSessionTimer_spec (w : World) :
  TimerInv w ->
  let w' := snd (clearSessionTimer w) in
  sessionRefreshTimer w' = None /\ subscriptions w' = ∅ /\ now w' = now w
  /\ nextSubscription w' = nextSubscription w.
Proof.
  intros H. unfold clearSessionTimer, exec; simpl.
  destruct (sessionRefreshTimer w) as [id|] eqn:Et; simpl.
  - split_and!; try done. apply map_empty. intros id'.
    destruct (decide (id' = id)) as [->|Hne]; [apply lookup_delete_eq |].
    rewrite lookup_delete_ne by done.
    destruct (subscriptions w !! id') as [sub|] eqn:E; [| done].
    specialize (H id' (ex_intro _ sub E)). congruence.
  - split_and!; try done. by apply TimerInv_none.
Qed.

(** Starting the timer leaves exactly one live subscription, made now. *)
Lemma setupSessionRefresh_spec (w : World) :
  TimerInv w ->
  let w' := snd (setupSessionRefresh w) in
  sessionRefreshTimer w' = Some (nextSubscription w)
  /\ subscriptions w' = {[ nextSubscription w := mkTimerSubscription (now w) 0 ]}
  /\ now w' = now w.
Proof.
  intros H. destruct (clearSessionTimer_spec w H) as (Ht & Hs & Hn & Hk).
  unfold setupSessionRefresh, bind.
  destruct (clearSessionTimer w) as [[[]|e] w1] eqn:E; simpl in *.
  - rewrite Hs, Hn, Hk. split_and!; try done.
  - unfold clearSessionTimer, exec in E. discriminate.
Qed.

Lemma TimerInv_clearSessionTimer : Preserves TimerInv clearSessionTimer.
Proof.
  intros w H. destruct (clearSessionTimer_spec w H) as (Ht & Hs & _).
  intros id [sub Hsub]. rewrite Hs, lookup_empty in Hsub. discriminate.
Qed.

Lemma TimerInv_setupSessionRefresh : Preserves TimerInv setupSessionRefresh.
Proof.
  intros w H. destruct (setupSessionRefresh_spec w H) as (Ht & Hs & _).
  intros id [sub Hsub]. rewrite Hs in Hsub. rewrite Ht.
  apply lookup_singleton_Some in Hsub as [<- _]. done.
Qed.

#[local] Hint Resolve TimerInv_legacy TimerInv_publish TimerInv_setLoadingNow
  TimerInv_clock TimerInv_navigations TimerInv_sessionStorage TimerInv_now
  TimerInv_isInitialized TimerInv_clearSessionTimer
  TimerInv_setupSessionRefresh : preserves.

Section TimerInvariant.
Variable P : Amplify.Provider.

Lemma tinv_getSessionExpiry : Preserves TimerInv (getSessionExpiry P).
Proof. unfold getSessionExpiry. auto 10 with preserves. Qed.

Lemma tinv_updateAuthState b u : Preserves TimerInv (updateAuthState P b u).
Proof.
  intros w H. unfold updateAuthState.
  apply (preserves_bind TimerInv); [| auto with preserves | exact H].
  destruct b; [apply tinv_getSessionExpiry | apply preserves_ret].
Qed.

Lemma tinv_checkSessionExpiry : Preserves TimerInv (checkSessionExpiry P).
Proof.
  unfold checkSessionExpiry.
  apply preserves_tryCatch; [| intros _; apply preserves_ret].
  apply preserves_bind; [apply tinv_getSessionExpiry |].
  intros _. apply preserves_ret.
Qed.

Lemma tinv_getReturnUrl : Preserves TimerInv getReturnUrl.
Proof. intros w H. unfold getReturnUrl; simpl. auto with preserves. Qed.

Lemma tinv_handleSignInNextStep step : Preserves TimerInv (handleSignInNextStep step).
Proof. destruct step; simpl; auto with preserves. Qed.

#[local] Hint Resolve tinv_getSessionExpiry tinv_updateAuthState
  tinv_checkSessionExpiry tinv_getReturnUrl tinv_handleSignInNextStep
  : preserves.

Lemma tinv_refreshSession : Preserves TimerInv (refreshSession P).
Proof.
  unfold refreshSession. apply preserves_tryCatch; [| auto with preserves].
  apply preserves_bind; [auto with preserves |].
  intros session. destruct (tokens session); auto 10 with preserves.
Qed.

Lemma tinv_signOut : Preserves TimerInv (signOut P).
Proof.
  unfold signOut, handleAuthError, setError, setLoading.
  auto 20 with preserves.
Qed.

Lemma tinv_onRefreshTimer : Preserves TimerInv (onRefreshTimer P).
Proof.
  unfold onRefreshTimer. apply preserves_tryCatch.
  - apply tinv_refreshSession.
  - intros _. apply tinv_signOut.
Qed.

Lemma tinv_timerFire id : Preserves TimerInv (timerFire P id).
Proof.
  intros w H. unfold timerFire.
  destruct (subscriptions w !! id) as [sub|] eqn:E; [| exact H].
  destruct (nextDue sub =? now w)%Z; [| exact H].
  apply tinv_onRefreshTimer. intros id' Hlive. simpl in *.
  apply H. destruct (decide (id' = id)) as [->|Hne]; [by eexists |].
  by rewrite lookup_insert_ne in Hlive.
Qed.

Lemma tinv_runOp (op : Op) (w : World) : TimerInv w -> TimerInv (runOp P op w).
Proof.
  destruct op; cbn [runOp]; revert w;
    lazymatch goal with
    | |- forall w, ?I w -> ?I (snd (?m w)) => change (Preserves I m)
    end;
    try apply tinv_refreshSession; try apply tinv_signOut;
    try apply tinv_timerFire;
    unfold checkAuthStatus, logout, setAuthenticated, waitForInitialization,
      signIn, signUp, confirmSignUp, resendConfirmationCode, resetPassword,
      confirmPasswordReset, getAccessToken, checkAuthenticationState,
      setReturnUrl, clearAuthState, elapse, handleAuthError, setError,
      setLoading;
    auto 30 with preserves.
Qed.

Lemma tinv_construct : TimerInv (construct P).
Proof.
  unfold construct. apply TimerInv_setupSessionRefresh.
  assert (Hinit : Preserves TimerInv (initializeAuth P)).
  { unfold initializeAuth, setLoading. apply preserves_tryFinally;
      auto 20 with preserves. }
  apply Hinit, (tinv_runOp CheckAuthStatus), TimerInv_initial.
Qed.

(** What one firing does: the emission is counted, [refreshSession()] runs,
    and [signOut()] runs after it exactly when it rejected. *)
Lemma timerFire_due (w : World) (id : nat) (sub : TimerSubscription) :
  subscriptions w !! id = Some sub ->
  now w = nextDue sub ->
  timerFire P id w =
    let w0 := with_timer (sessionRefreshTimer w)
                (<[id := mkTimerSubscription (startedAt sub) (S (emitted sub))]>
                   (subscriptions w))
                (nextSubscription w) w in
    match refreshSession P w0 with
    | (Fulfilled _, w1) => (Fulfilled tt, w1)
    | (Rejected _, w1) => signOut P w1
    end.
Proof.
  intros Hsub Hnow. unfold timerFire. rewrite Hsub, Hnow, Z.eqb_refl.
  unfold onRefreshTimer, tryCatch. simpl.
  by destruct (refreshSession P _) as [[[]|e] w1].
Qed.

Lemma timerFire_not_due (w : World) (id : nat) (sub : TimerSubscription) :
  subscriptions w !! id = Some sub ->
  now w <> nextDue sub ->
  timerFire P id w = (Fulfilled tt, w).
Proof.
  intros Hsub Hnow. unfold timerFire. rewrite Hsub.
  destruct (Z.eqb_spec (nextDue sub) (now w)); [congruence | done].
Qed.

Lemma timerFire_cancelled (w : World) (id : nat) :
  subscriptions w !! id = None -> timerFire P id w = (Fulfilled tt, w).
Proof. intros Hsub. unfold timerFire. by rewrite Hsub. Qed.

End TimerInvariant.

Lemma emissionTime_eq (sub : TimerSubscription) (n : nat) :
  emissionTime sub n = (startedAt sub + Z.of_nat n * 2700000)%Z.
Proof. unfold emissionTime, REFRESH_DUE, REFRESH_PERIOD. lia. Qed.

(** Time reaches the next due value of the one live timer, and does not go
    past it before that value is delivered. *)
Lemma elapse_single (w : World) (id : nat) (sub : TimerSubscription) (dt : Z) :
  subscriptions w = {[ id := sub ]} ->
  (now w <= nextDue sub)%Z ->
  let w' := snd (elapse dt w) in
  (now w <= now w' <= nextDue sub)%Z
  /\ ((nextDue sub - now w <= dt)%Z -> now w' = nextDue sub).
Proof.
  intros Hs Hle. unfold elapse, exec, earliestDue; simpl.
  rewrite Hs, map_fold_singleton. lia.
Qed.

(** C4: the refresh timer.  Starting it (from a world where the service
    holds every live subscription) leaves exactly one live subscription,
    made at the current time; its n-th value is due n * 45 minutes later,
    the first one at once; a firing happens only when a value of a live
    subscription is due, and then runs [refreshSession()] followed, exactly
    when that rejects, by [signOut()]; a cancelled subscription never fires;
    and whatever the service does afterwards, at most one timer is live. *)
Theorem refresh_timer_contract (P : Amplify.Provider) (w : World) :
  TimerInv w ->
  let w1 := snd (setupSessionRefresh w) in
  let started := mkTimerSubscription (now w) 0 in
  (sessionRefreshTimer w1 = Some (nextSubscription w)
   /\ subscriptions w1 = {[ nextSubscription w := started ]}
   /\ nextDue started = now w1)
  /\ (forall sub n, emissionTime sub n = (startedAt sub + Z.of_nat n * 2700000)%Z)
  /\ (forall w0 id sub,
        subscriptions w0 !! id = Some sub ->
        now w0 = nextDue sub ->
        timerFire P id w0 =
          let w2 := with_timer (sessionRefreshTimer w0)
                      (<[id := mkTimerSubscription (startedAt sub) (S (emitted sub))]>
                         (subscriptions w0))
                      (nextSubscription w0) w0 in
          match refreshSession P w2 with
          | (Fulfilled _, w3) => (Fulfilled tt, w3)
          | (Rejected _, w3) => signOut P w3
          end)
  /\ (forall w0 id sub,
        subscriptions w0 !! id = Some sub ->
        now w0 <> nextDue sub ->
        timerFire P id w0 = (Fulfilled tt, w0))
  /\ (forall w0 id,
        subscriptions w0 !! id = None -> timerFire P id w0 = (Fulfilled tt, w0))
  /\ (forall w0 id sub dt,
        subscriptions w0 = {[ id := sub ]} ->
        (now w0 <= nextDue sub)%Z ->
        (now (snd (elapse dt w0)) <= nextDue sub)%Z
        /\ now (snd (elapse (nextDue sub - now w0) w0)) = nextDue sub)
  /\ (forall ops, size (subscriptions (runOps P ops w1)) <= 1)
  /\ (forall ops, size (subscriptions (runOps P ops (construct P))) <= 1).
Proof.
  intros H w1 started.
  destruct (setupSessionRefresh_spec w H) as (Ht & Hs & Hn).
  split_and!.
  - exact Ht.
  - exact Hs.
  - subst w1. rewrite Hn. unfold nextDue, emissionTime, REFRESH_DUE. simpl. lia.
  - exact emissionTime_eq.
  - apply timerFire_due.
  - apply timerFire_not_due.
  - apply timerFire_cancelled.
  - intros w0 id sub dt Hsub Hle. split.
    + by apply (elapse_single w0 id sub dt).
    + apply (elapse_single w0 id sub (nextDue sub - now w0)); [done | done | lia].
  - intros ops. apply TimerInv_size, preserves_runOps; [apply tinv_runOp |].
    by apply TimerInv_setupSessionRefresh.
  - intros ops. apply TimerInv_size, preserves_runOps;
      [apply tinv_runOp | apply tinv_construct].
Qed.

Lemma refresh_timer_contract_witness :
  TimerInv initialWorld
  /\ sessionRefreshTimer (snd (setupSessionRefresh initialWorld)) = Some 0.
Proof.
  split; [exact TimerInv_initial |].
  apply (refresh_timer_contract Scenario.signedIn initialWorld TimerInv_initial).
Defined.

End AuthServiceProofs.

(** * Properties of AuthInterceptor *)

Module AuthInterceptorProofs.
Import AuthInterceptor.

(** ** The exclusion list *)

Example excluded_cognito :
  shouldExcludeUrl "https://cognito-idp.eu-west-1.amazonaws.com/" = true.
Proof. reflexivity. Qed.

Example excluded_public :
  shouldExcludeUrl "https://api.example.com/public/version" = true.
Proof. reflexivity. Qed.

Example not_excluded_api :
  shouldExcludeUrl "https://api.example.com/todos" = false.
Proof. reflexivity. Qed.

(** A request to an excluded URL is handed over as it came, whatever the
    Session says. *)
Lemma excluded_url_passes_through (s : State) (id : nat) (r : HttpRequest)
    (a : AuthState) :
  inflight s !! id = None ->
  shouldExcludeUrl (url r) = true ->
  let s' := step s (Intercept id r a) in
  handled s' = (handled s ++ [(id, r)])%list
  /\ stageOf id s' = Some (Forwarded false).
Proof.
  intros Hfresh Hurl. simpl. unfold onIntercept, stageOf.
  rewrite Hfresh, Hurl. simpl. by rewrite lookup_insert_eq.
Qed.

(** ** Bookkeeping *)

Lemma handledFor_handle_eq (id : nat) (r : HttpRequest) (s : State) :
  handledFor id (handle id r s) = (handledFor id s ++ [r])%list.
Proof.
  unfold handledFor; simpl. rewrite filter_app, fmap_app. f_equal.
  rewrite filter_cons_True by done. done.
Qed.

Lemma handledFor_handle_ne (id id' : nat) (r : HttpRequest) (s : State) :
  id' <> id -> handledFor id (handle id' r s) = handledFor id s.
Proof.
  intros Hne. unfold handledFor; simpl. rewrite filter_app, fmap_app.
  rewrite filter_cons_False by done. simpl. by rewrite app_nil_r.
Qed.

Lemma inflight_setStage_eq id r st s :
  inflight (setStage id r st s) !! id = Some (mkPending r st).
Proof. simpl. apply lookup_insert_eq. Qed.

Lemma inflight_setStage_ne id id' r st s :
  id' <> id -> inflight (setStage id' r st s) !! id = inflight s !! id.
Proof. intros Hne. simpl. by apply lookup_insert_ne. Qed.

(** [continueWaiter] concerns one request only. *)
Lemma continueWaiter_other token id r s id0 :
  id <> id0 ->
  inflight (continueWaiter token id r s) !! id0 = inflight s !! id0
  /\ handledFor id0 (continueWaiter token id r s) = handledFor id0 s.
Proof.
  intros Hne. unfold continueWaiter. destruct (truthy token).
  - split; [by rewrite inflight_setStage_ne |].
    change (handledFor id0 (handle id (addAuthHeader r token) s) = handledFor id0 s).
    by apply handledFor_handle_ne.
  - split; [by rewrite inflight_setStage_ne | done].
Qed.

(** Waking the waiters leaves every other request alone. *)
Lemma resume_frame token s id id0 :
  notWaiting id0 s ->
  inflight (resume token s id) !! id0 = inflight s !! id0
  /\ handledFor id0 (resume token s id) = handledFor id0 s.
Proof.
  intros Hnw. unfold resume.
  destruct (inflight s !! id) as [[r st]|] eqn:E; [| done].
  destruct st; try done.
  destruct (decide (id = id0)) as [->|Hne]; [by destruct (Hnw r) |].
  by apply continueWaiter_other.
Qed.

Lemma wake_frame token obs s id0 :
  notWaiting id0 s ->
  inflight (foldl (resume token) s obs) !! id0 = inflight s !! id0
  /\ handledFor id0 (foldl (resume token) s obs) = handledFor id0 s.
Proof.
  revert s. induction obs as [|id obs IH]; intros s Hnw; simpl; [done |].
  destruct (resume_frame token s id id0 Hnw) as [Hi Hh].
  destruct (IH (resume token s id)) as [Hi' Hh'].
  - intros r. rewrite Hi. apply Hnw.
  - split; congruence.
Qed.

Lemma next_frame token s id0 :
  notWaiting id0 s ->
  inflight (next token s) !! id0 = inflight s !! id0
  /\ handledFor id0 (next token s) = handledFor id0 s.
Proof.
  intros Hnw.
  exact (wake_frame token (observers s) (setSubject (Some token) [] s) id0 Hnw).
Qed.

(** The counters and flags that waking the waiters does not touch. *)
Lemma resume_counters token s id :
  refreshSessionCalls (resume token s id) = refreshSessionCalls s
  /\ signOutCalls (resume token s id) = signOutCalls s
  /\ isRefreshing (resume token s id) = isRefreshing s
  /\ refreshTokenSubject (resume token s id) = refreshTokenSubject s
  /\ observers (resume token s id) = observers s.
Proof.
  unfold resume. destruct (inflight s !! id) as [[r st]|]; [| done].
  destruct st; try done. unfold continueWaiter. by destruct (truthy token).
Qed.

Lemma wake_counters token obs s :
  let s' := foldl (resume token) s obs in
  refreshSessionCalls s' = refreshSessionCalls s
  /\ signOutCalls s' = signOutCalls s
  /\ isRefreshing s' = isRefreshing s
  /\ refreshTokenSubject s' = refreshTokenSubject s
  /\ observers s' = observers s.
Proof.
  revert s. induction obs as [|id obs IH]; intros s; simpl; [done |].
  destruct (IH (resume token s id)) as (H1 & H2 & H3 & H4 & H5).
  destruct (resume_counters token s id) as (G1 & G2 & G3 & G4 & G5).
  split_and!; congruence.
Qed.

(** ** What the handler sees of each request *)

Lemma Shape_ext (s s' : State) :
  inflight s' = inflight s -> handled s' = handled s -> Shape s -> Shape s'.
Proof.
  intros Hi Hh H id. specialize (H id).
  unfold ShapeAt, handledFor in *. by rewrite Hi, Hh.
Qed.

Lemma ShapeAt_same (id : nat) (s s' : State) :
  inflight s' !! id = inflight s !! id ->
  handledFor id s' = handledFor id s ->
  ShapeAt id s -> ShapeAt id s'.
Proof. unfold ShapeAt. by intros -> ->. Qed.

Lemma Shape_lookup (s : State) (id : nat) (r : HttpRequest) (st : Stage) :
  Shape s -> inflight s !! id = Some (mkPending r st) ->
  StageOk r st (handledFor id s).
Proof. intros H E. specialize (H id). unfold ShapeAt in H. by rewrite E in H. Qed.

Lemma Shape_setStage (id : nat) (r : HttpRequest) (st : Stage) (s : State) :
  Shape s -> StageOk r st (handledFor id s) -> Shape (setStage id r st s).
Proof.
  intros H Hok id0. destruct (decide (id = id0)) as [<-|Hne].
  - unfold ShapeAt. by rewrite inflight_setStage_eq.
  - apply (ShapeAt_same id0 s); [by apply inflight_setStage_ne | done | apply H].
Qed.

Lemma Shape_handle_setStage (id : nat) (r r' : HttpRequest) (st : Stage) (s : State) :
  Shape s -> StageOk r st (handledFor id s ++ [r']) ->
  Shape (setStage id r st (handle id r' s)).
Proof.
  intros H Hok id0. destruct (decide (id = id0)) as [<-|Hne].
  - unfold ShapeAt. rewrite inflight_setStage_eq.
    change (StageOk r st (handledFor id (handle id r' s))).
    by rewrite handledFor_handle_eq.
  - apply (ShapeAt_same id0 s); [by rewrite inflight_setStage_ne | | apply H].
    change (handledFor id0 (handle id r' s) = handledFor id0 s).
    by apply handledFor_handle_ne.
Qed.

Lemma Shape_continueWaiter token id r s :
  Shape s -> handledFor id s = [r] -> Shape (continueWaiter token id r s).
Proof.
  intros H Hseen. unfold continueWaiter. destruct (truthy token) eqn:Etok.
  - apply Shape_handle_setStage; [done |]. rewrite Hseen. by exists token.
  - apply Shape_setStage; [done |]. by left.
Qed.

Lemma Shape_resume token s id : Shape s -> Shape (resume token s id).
Proof.
  intros H. unfold resume.
  destruct (inflight s !! id) as [[r st]|] eqn:E; [| done].
  destruct st; try done.
  apply Shape_continueWaiter; [done |]. exact (Shape_lookup s id r _ H E).
Qed.

Lemma Shape_next token s : Shape s -> Shape (next token s).
Proof.
  intros H. unfold next.
  assert (H0 : Shape (setSubject (Some token) [] s)) by by apply (Shape_ext s).
  revert H0. generalize (setSubject (Some token) [] s). clear H.
  induction (observers s) as [|id obs IH]; intros s0 H0; simpl; [done |].
  by apply IH, Shape_resume.
Qed.

Lemma Shape_handle401Error id r s :
  Shape s -> handledFor id s = [r] -> Shape (handle401Error id r s).
Proof.
  intros H Hseen. unfold handle401Error. destruct (negb (isRefreshing s)).
  - apply (Shape_ext (setStage id r LeadingRefresh s)); [done | done |].
    by apply Shape_setStage.
  - destruct (refreshTokenSubject s) as [token|].
    + by apply Shape_continueWaiter.
    + apply (Shape_ext (setStage id r AwaitingRefreshedToken s)); [done | done |].
      by apply Shape_setStage.
Qed.

Lemma Shape_initial : Shape initialState.
Proof. intros id. unfold ShapeAt. simpl. by rewrite lookup_empty. Qed.

Lemma Shape_step (s : State) (ev : Event) : Shape s -> Shape (step s ev).
Proof.
  intros H. destruct ev as [id r a | id t | id o | id t]; simpl.
  - unfold onIntercept. destruct (inflight s !! id) as [p|] eqn:E; [done |].
    assert (Hseen : handledFor id s = []).
    { specialize (H id). unfold ShapeAt in H. by rewrite E in H. }
    destruct (shouldExcludeUrl (url r)); [| destruct (isAuthenticated a)].
    + apply Shape_handle_setStage; [done |]. by rewrite Hseen.
    + by apply Shape_setStage.
    + apply Shape_handle_setStage; [done |]. by rewrite Hseen.
  - unfold onAccessToken. destruct (inflight s !! id) as [[r st]|] eqn:E; [| done].
    destruct st; try done.
    pose proof (Shape_lookup s id r _ H E) as Hseen. simpl in Hseen.
    destruct t as [[token|]|e];
      (apply Shape_handle_setStage; [done |]; by rewrite Hseen).
  - unfold onResponse. destruct (inflight s !! id) as [[r st]|] eqn:E; [| done].
    pose proof (Shape_lookup s id r _ H E) as Hseen.
    destruct st as [|[|]| | |[|]|]; simpl in Hseen; try done.
    + destruct (is401 o).
      * by apply Shape_handle401Error.
      * apply Shape_setStage; [done |]. by left.
    + apply Shape_setStage; [done |]. by left.
    + destruct o.
      * apply (Shape_ext (setStage id r (Settled_ (Emits r0)) s)); [done | done |].
        apply Shape_setStage; [done |]. by right.
      * apply (Shape_ext (setStage id r (Settled_ (Fails e)) s)); [done | done |].
        apply Shape_setStage; [done |]. by right.
    + apply Shape_setStage; [done |]. by right.
  - unfold onRefreshed. destruct (inflight s !! id) as [[r st]|] eqn:E; [| done].
    destruct st; try done.
    pose proof (Shape_lookup s id r _ H E) as Hseen. simpl in Hseen.
    destruct t as [tok|e].
    + set (token := default "" tok).
      set (s1 := next token (setRefreshing false s)).
      assert (H1 : Shape s1).
      { apply Shape_next. by apply (Shape_ext s). }
      assert (Hseen1 : handledFor id s1 = [r]).
      { rewrite <- Hseen.
        apply (next_frame token (setRefreshing false s) id).
        intros r'. simpl. rewrite E. discriminate. }
      destruct (truthy token) eqn:Etok.
      * apply Shape_handle_setStage; [done |]. rewrite Hseen1. by exists token.
      * apply (Shape_ext (setStage id r (Settled_ (Fails TOKEN_REFRESH_FAILED)) s1));
          [done | done |].
        apply Shape_setStage; [done |]. by left.
    + apply (Shape_ext (setStage id r (Settled_ (Fails (SdkError e))) s));
        [done | done |].
      apply Shape_setStage; [done |]. by left.
Qed.

Lemma Shape_run (evs : list Event) (s : State) : Shape s -> Shape (run s evs).
Proof.
  revert s. induction evs as [|ev evs IH]; intros s H; simpl; [done |].
  by apply IH, Shape_step.
Qed.

(** ** One request at a time *)

Ltac other_request :=
  split;
  [ simpl; rewrite ?lookup_insert_ne by done; reflexivity
  | unfold handledFor; simpl;
    rewrite ?filter_app, ?fmap_app; rewrite ?filter_cons_False by done;
    simpl; rewrite ?app_nil_r; reflexivity ].

Lemma handle401Error_other id r s id0 :
  id <> id0 ->
  inflight (handle401Error id r s) !! id0 = inflight s !! id0
  /\ handledFor id0 (handle401Error id r s) = handledFor id0 s.
Proof.
  intros Hne. unfold handle401Error. destruct (negb (isRefreshing s)).
  - other_request.
  - destruct (refreshTokenSubject s); [by apply continueWaiter_other |].
    other_request.
Qed.

(** An event about one request leaves another one alone, unless that other
    one is parked on [refreshTokenSubject]. *)
Lemma step_other (s : State) (ev : Event) (id0 : nat) :
  eventId ev <> id0 ->
  notWaiting id0 s ->
  inflight (step s ev) !! id0 = inflight s !! id0
  /\ handledFor id0 (step s ev) = handledFor id0 s.
Proof.
  intros Hne Hnw. destruct ev as [id r a | id t | id o | id t]; simpl in *.
  - unfold onIntercept. destruct (inflight s !! id); [done |].
    destruct (shouldExcludeUrl (url r)); [| destruct (isAuthenticated a)];
      other_request.
  - unfold onAccessToken. destruct (inflight s !! id) as [[r st]|]; [| done].
    destruct st; try done.
    destruct t as [[token|]|e]; other_request.
  - unfold onResponse. destruct (inflight s !! id) as [[r st]|]; [| done].
    destruct st as [|[|]| | |[|]|]; try done; try other_request.
    + destruct (is401 o); [by apply handle401Error_other | other_request].
    + destruct o; other_request.
  - unfold onRefreshed. destruct (inflight s !! id) as [[r st]|]; [| done].
    destruct st; try done.
    destruct t as [tok|e]; [| other_request].
    destruct (next_frame (default "" tok) (setRefreshing false s) id0 Hnw)
      as [Hi Hh].
    destruct (truthy (default "" tok)).
    + split.
      * rewrite inflight_setStage_ne by done. exact Hi.
      * change (handledFor id0 (handle id (addAuthHeader r (default "" tok))
                  (next (default "" tok) (setRefreshing false s)))
                = handledFor id0 s).
        rewrite handledFor_handle_ne by done. exact Hh.
    + split.
      * simpl. rewrite lookup_insert_ne by done. exact Hi.
      * exact Hh.
Qed.

(** Once the caller has its answer, the request is over. *)
Lemma settled_is_final (s : State) (ev : Event) (id : nat) (r : HttpRequest)
    (o : Outcome) :
  inflight s !! id = Some (mkPending r (Settled_ o)) ->
  inflight (step s ev) !! id = Some (mkPending r (Settled_ o))
  /\ handledFor id (step s ev) = handledFor id s.
Proof.
  intros E. destruct (decide (eventId ev = id)) as [Heq|Hne].
  - destruct ev as [id' r' a | id' t | id' o' | id' t]; simpl in Heq; subst id';
      simpl; unfold onIntercept, onAccessToken, onResponse, onRefreshed;
      by rewrite E.
  - rewrite <- E. apply step_other; [done |].
    intros r'. rewrite E. discriminate.
Qed.

(** A failure of the retried request goes to the caller as it is. *)
Lemma retried_failure_surfaced (s : State) (id : nat) (r : HttpRequest)
    (leader : bool) (e : HttpError) :
  inflight s !! id = Some (mkPending r (Retried leader)) ->
  let s' := step s (Response id (Fails e)) in
  stageOf id s' = Some (Settled_ (Fails e))
  /\ handled s' = handled s
  /\ refreshSessionCalls s' = refreshSessionCalls s.
Proof.
  intros E. simpl. unfold onResponse, stageOf. rewrite E.
  destruct leader; simpl; by rewrite lookup_insert_eq.
Qed.

(** An error that is not a 401 goes to the caller as it is; so does any
    error of a request forwarded outside the 401 handling. *)
Lemma other_failure_surfaced (s : State) (id : nat) (r : HttpRequest)
    (guarded : bool) (e : HttpError) :
  inflight s !! id = Some (mkPending r (Forwarded guarded)) ->
  guarded = false \/ is401 (Fails e) = false ->
  let s' := step s (Response id (Fails e)) in
  stageOf id s' = Some (Settled_ (Fails e))
  /\ handled s' = handled s
  /\ refreshSessionCalls s' = refreshSessionCalls s.
Proof.
  intros E Hcase. cbn [step]. unfold onResponse, stageOf. rewrite E.
  destruct guarded.
  - destruct Hcase as [|H401]; [done |]. rewrite H401.
    simpl. by rewrite lookup_insert_eq.
  - simpl. by rewrite lookup_insert_eq.
Qed.

Lemma wake_falsy_handled token obs s :
  truthy token = false -> handled (foldl (resume token) s obs) = handled s.
Proof.
  intros Htok. revert s. induction obs as [|id obs IH]; intros s; simpl; [done |].
  rewrite IH. unfold resume.
  destruct (inflight s !! id) as [[r st]|]; [| done].
  destruct st; try done. unfold continueWaiter. by rewrite Htok.
Qed.

(** A refresh that yields no token causes no retry at all. *)
Lemma refresh_without_token_no_retry (s : State) (id : nat) (r : HttpRequest)
    (t : Settled (option string)) :
  inflight s !! id = Some (mkPending r LeadingRefresh) ->
  match t with
  | Fulfilled tok => truthy (default "" tok) = false
  | Rejected _ => True
  end ->
  let s' := step s (Refreshed id t) in
  handled s' = handled s
  /\ exists e, stageOf id s' = Some (Settled_ (Fails e)).
Proof.
  intros E Ht. cbn [step]. unfold onRefreshed, stageOf. rewrite E.
  destruct t as [tok|e].
  - rewrite Ht. simpl. rewrite lookup_insert_eq. split; [| by eexists].
    unfold next. by rewrite wake_falsy_handled.
  - simpl. rewrite lookup_insert_eq. split; [done | by eexists].
Qed.

Lemma Shape_bound (s : State) (id : nat) :
  Shape s ->
  length (handledFor id s) <= 2
  /\ (forall r1 r2, handledFor id s = [r1; r2] ->
        exists token, truthy token = true /\ r2 = addAuthHeader r1 token).
Proof.
  intros H. specialize (H id). unfold ShapeAt in H.
  assert (Hretry : forall r, RetriedOnce r (handledFor id s) ->
            length (handledFor id s) <= 2
            /\ (forall r1 r2, handledFor id s = [r1; r2] ->
                  exists token, truthy token = true /\ r2 = addAuthHeader r1 token)).
  { intros r (token & Htok & ->). split; [simpl; lia |].
    intros r1 r2 [= <- <-]. by exists token. }
  destruct (inflight s !! id) as [[r st]|].
  - destruct st; simpl in H;
      try (rewrite H; split; [simpl; lia | intros ? ? [=]]);
      try (by apply (Hretry r)).
    destruct H as [H|H]; [| by apply (Hretry r)].
    rewrite H; split; [simpl; lia | intros ? ? [=]].
  - rewrite H; split; [simpl; lia | intros ? ? [=]].
Qed.

(** C5: every request is handed to the handler at most twice, whatever the
    events: once as forwarded, and at most once more, and then with a
    non-empty token delivered by a refresh.  A refresh that yields no token
    causes no retry.  An error of the retried request (a second 401
    included) goes to the caller as it is, with no further handler call and
    no further refresh; so does an error other than 401 of the first
    attempt; and a request that has been answered is not touched again. *)
Theorem retry_at_most_once :
  (forall evs id,
     let s := run initialState evs in
     length (handledFor id s) <= 2
     /\ (forall r1 r2, handledFor id s = [r1; r2] ->
           exists token, truthy token = true /\ r2 = addAuthHeader r1 token))
  /\ (forall s id r t,
        inflight s !! id = Some (mkPending r LeadingRefresh) ->
        match t with
        | Fulfilled tok => truthy (default "" tok) = false
        | Rejected _ => True
        end ->
        let s' := step s (Refreshed id t) in
        handled s' = handled s
        /\ exists e, stageOf id s' = Some (Settled_ (Fails e)))
  /\ (forall s id r leader e,
        inflight s !! id = Some (mkPending r (Retried leader)) ->
        let s' := step s (Response id (Fails e)) in
        stageOf id s' = Some (Settled_ (Fails e))
        /\ handled s' = handled s
        /\ refreshSessionCalls s' = refreshSessionCalls s)
  /\ (forall s id r guarded e,
        inflight s !! id = Some (mkPending r (Forwarded guarded)) ->
        guarded = false \/ is401 (Fails e) = false ->
        let s' := step s (Response id (Fails e)) in
        stageOf id s' = Some (Settled_ (Fails e))
        /\ handled s' = handled s
        /\ refreshSessionCalls s' = refreshSessionCalls s)
  /\ (forall s ev id r o,
        inflight s !! id = Some (mkPending r (Settled_ o)) ->
        inflight (step s ev) !! id = Some (mkPending r (Settled_ o))
        /\ handledFor id (step s ev) = handledFor id s).
Proof.
  split_and!.
  - intros evs id s. apply Shape_bound, Shape_run, Shape_initial.
  - apply refresh_without_token_no_retry.
  - apply retried_failure_surfaced.
  - apply other_failure_surfaced.
  - intros s ev id r o. apply settled_is_final.
Qed.

Lemma retry_at_most_once_witness :
  let s := run initialState Scenario.unauthorizedThenRetried in
  let r := addAuthHeader Scenario.todosRequest "stale" in
  inflight s !! 1 = Some (mkPending r (Retried true))
  /\ handledFor 1 s = [r; addAuthHeader r "fresh"]
  /\ stageOf 1 (step s (Response 1 Scenario.unauthorized))
     = Some (Settled_ Scenario.unauthorized).
Proof.
  assert (E : inflight (run initialState Scenario.unauthorizedThenRetried) !! 1
              = Some (mkPending (addAuthHeader Scenario.todosRequest "stale")
                        (Retried true)))
    by (vm_compute; reflexivity).
  split; [exact E |]. split; [vm_compute; reflexivity |].
  destruct retry_at_most_once as (_ & _ & Hretried & _).
  apply (Hretried _ 1 _ true (HttpErrorResponse 401) E).
Defined.

(** ** A missing token *)

Lemma getAccessToken_never_rejects (P : Amplify.Provider) (w : World) :
  exists t, fst (AuthService.getAccessToken P w) = Fulfilled t.
Proof.
  unfold AuthService.getAccessToken, tryCatch, bind, sdk, ret; simpl.
  destruct (Amplify.fetchAuthSession P (clock w)); simpl; by eexists.
Qed.

(** C10: a request to a URL that is not excluded, made while the Session
    is authenticated, is still handed to the handler when [getAccessToken]
    resolves to null (or to an empty string) or rejects, and it is handed
    over as it came: no Authorization header is added. *)
Theorem missing_token_still_forwards (s : State) (id : nat) (r : HttpRequest)
    (a : AuthState) (t : Settled (option string)) :
  inflight s !! id = None ->
  shouldExcludeUrl (url r) = false ->
  isAuthenticated a = true ->
  match t with
  | Fulfilled (Some token) => truthy token = false
  | Fulfilled None => True
  | Rejected _ => True
  end ->
  let s' := run s [Intercept id r a; AccessToken id t] in
  handled s' = (handled s ++ [(id, r)])%list
  /\ (exists guarded, inflight s' !! id = Some (mkPending r (Forwarded guarded)))
  /\ (headers r !! "Authorization" = None ->
      forall r', (id, r') ∈ handled s' -> (id, r') ∉ handled s ->
                 headers r' !! "Authorization" = None).
Proof.
  intros Hfresh Hurl Hauth Ht. simpl.
  unfold onIntercept. rewrite Hfresh, Hurl, Hauth.
  unfold onAccessToken. rewrite inflight_setStage_eq.
  assert (Hin : forall l, headers r !! "Authorization" = None ->
            forall r', (id, r') ∈ (l ++ [(id, r)])%list -> (id, r') ∉ l ->
                       headers r' !! "Authorization" = None).
  { intros l Hr r' Hin Hnot. apply elem_of_app in Hin as [Hin|Hin]; [done |].
    apply list_elem_of_singleton in Hin. by injection Hin as ->. }
  destruct t as [[token|]|e].
  - rewrite Ht. simpl. rewrite lookup_insert_eq.
    split_and!; [done | by eexists | apply Hin].
  - simpl. rewrite lookup_insert_eq.
    split_and!; [done | by eexists | apply Hin].
  - simpl. rewrite lookup_insert_eq.
    split_and!; [done | by eexists | apply Hin].
Qed.

Lemma missing_token_still_forwards_witness :
  handled (run initialState
             [Intercept 1 Scenario.todosRequest Scenario.authenticatedState;
              AccessToken 1 (Fulfilled None)])
  = [(1, Scenario.todosRequest)].
Proof.
  apply (missing_token_still_forwards initialState 1 Scenario.todosRequest
           Scenario.authenticatedState (Fulfilled None)).
  - reflexivity.
  - reflexivity.
  - reflexivity.
  - exact Logic.I.
Defined.

(** ** Concurrent 401 responses *)

(** While a refresh is in flight a further 401 starts no other one. *)
Lemma unauthorized_while_refreshing (s : State) (id : nat) (r : HttpRequest) :
  isRefreshing s = true ->
  inflight s !! id = Some (mkPending r (Forwarded true)) ->
  refreshSessionCalls (step s (Response id Scenario.unauthorized))
  = refreshSessionCalls s.
Proof.
  intros Hr E. simpl. unfold onResponse. rewrite E. simpl.
  unfold handle401Error. rewrite Hr. simpl.
  destruct (refreshTokenSubject s); [| done].
  unfold continueWaiter. by destruct (truthy _).
Qed.

(** [resume] concerns the request it is called for only. *)
Lemma resume_other token s id id0 :
  id <> id0 ->
  inflight (resume token s id) !! id0 = inflight s !! id0
  /\ handledFor id0 (resume token s id) = handledFor id0 s.
Proof.
  intros Hne. unfold resume.
  destruct (inflight s !! id) as [[r st]|]; [| done].
  destruct st; try done. by apply continueWaiter_other.
Qed.

Lemma continueWaiter_self token id r s :
  inflight (continueWaiter token id r s) !! id = Some (mkPending r (released token r))
  /\ handledFor id (continueWaiter token id r s)
     = (handledFor id s ++ releasedWith token r)%list.
Proof.
  unfold continueWaiter, released, releasedWith. destruct (truthy token).
  - split; [apply inflight_setStage_eq |].
    change (handledFor id (handle id (addAuthHeader r token) s)
            = (handledFor id s ++ [addAuthHeader r token])%list).
    apply handledFor_handle_eq.
  - split; [apply inflight_setStage_eq |].
    change (handledFor id s = (handledFor id s ++ [])%list). by rewrite app_nil_r.
Qed.

Lemma released_notWaiting token r0 id0 s :
  inflight s !! id0 = Some (mkPending r0 (released token r0)) -> notWaiting id0 s.
Proof.
  intros E r. rewrite E. unfold released. destruct (truthy token); discriminate.
Qed.

(** Every observer that is parked takes the value, once. *)
Lemma wake_waiter token obs s id0 r0 :
  id0 ∈ obs ->
  inflight s !! id0 = Some (mkPending r0 AwaitingRefreshedToken) ->
  let s' := foldl (resume token) s obs in
  inflight s' !! id0 = Some (mkPending r0 (released token r0))
  /\ handledFor id0 s' = (handledFor id0 s ++ releasedWith token r0)%list.
Proof.
  revert s. induction obs as [|id obs IH]; intros s Hin E; simpl.
  - by apply elem_of_nil in Hin.
  - destruct (decide (id = id0)) as [->|Hne].
    + assert (Hres : resume token s id0 = continueWaiter token id0 r0 s)
        by (unfold resume; by rewrite E).
      rewrite Hres.
      destruct (continueWaiter_self token id0 r0 s) as [Hi Hh].
      destruct (wake_frame token obs (continueWaiter token id0 r0 s) id0)
        as [Hi' Hh']; [by eapply released_notWaiting |].
      split; congruence.
    + destruct (resume_other token s id id0 Hne) as [Hi Hh].
      apply elem_of_cons in Hin as [Heq|Hin]; [congruence |].
      destruct (IH (resume token s id) Hin) as [Hi' Hh']; [congruence |].
      split; congruence.
Qed.

(** A refresh that settles with a value releases every parked request with
    that one value: each is retried once with the token, or, when the token
    is empty, each fails with "Token refresh failed", as the leader does. *)
Lemma refresh_outcome_shared (s : State) (id id0 : nat) (r r0 : HttpRequest)
    (tok : option string) :
  Parked s ->
  inflight s !! id = Some (mkPending r LeadingRefresh) ->
  inflight s !! id0 = Some (mkPending r0 AwaitingRefreshedToken) ->
  let token := default "" tok in
  let s' := step s (Refreshed id (Fulfilled tok)) in
  inflight s' !! id0 = Some (mkPending r0 (released token r0))
  /\ handledFor id0 s' = (handledFor id0 s ++ releasedWith token r0)%list
  /\ stageOf id s' = Some (if truthy token then Retried true
                           else Settled_ (Fails TOKEN_REFRESH_FAILED))
  /\ refreshSessionCalls s' = refreshSessionCalls s.
Proof.
  intros Hp E E0 token s'. subst s'. cbn [step]. unfold onRefreshed. rewrite E.
  fold token.
  assert (Hne : id <> id0) by (intros ->; congruence).
  destruct (wake_waiter token (observers s)
              (setSubject (Some token) [] (setRefreshing false s)) id0 r0
              (Hp id0 r0 E0) E0) as [Hi Hh].
  destruct (wake_counters token (observers s)
              (setSubject (Some token) [] (setRefreshing false s)))
    as (Hc & _).
  change (foldl (resume token) (setSubject (Some token) [] (setRefreshing false s))
            (observers s)) with (next token (setRefreshing false s)) in *.
  unfold stageOf. destruct (truthy token).
  - split_and!.
    + by rewrite inflight_setStage_ne.
    + change (handledFor id0 (handle id (addAuthHeader r token)
                (next token (setRefreshing false s)))
              = (handledFor id0 s ++ releasedWith token r0)%list).
      by rewrite handledFor_handle_ne.
    + by rewrite inflight_setStage_eq.
    + exact Hc.
  - split_and!.
    + simpl. by rewrite lookup_insert_ne.
    + exact Hh.
    + simpl. by rewrite lookup_insert_eq.
    + exact Hc.
Qed.

Lemma Parked_initial : Parked initialState.
Proof. intros id r E. simpl in E. by rewrite lookup_empty in E. Qed.

Lemma Parked_setStage id r st s :
  Parked s -> st <> AwaitingRefreshedToken -> Parked (setStage id r st s).
Proof.
  intros Hp Hst id0 r0 E. destruct (decide (id = id0)) as [->|Hne].
  - rewrite inflight_setStage_eq in E. congruence.
  - rewrite inflight_setStage_ne in E by done. exact (Hp id0 r0 E).
Qed.

Lemma Parked_ext (s s' : State) :
  inflight s' = inflight s -> observers s' = observers s -> Parked s -> Parked s'.
Proof. intros Hi Ho Hp id r. rewrite Hi, Ho. apply Hp. Qed.

Lemma Parked_continueWaiter token id r s :
  Parked s -> Parked (continueWaiter token id r s).
Proof.
  intros Hp. unfold continueWaiter. destruct (truthy token).
  - apply Parked_setStage; [by apply (Parked_ext s) | done].
  - by apply Parked_setStage.
Qed.

Lemma Parked_handle401Error id r s :
  Parked s -> Parked (handle401Error id r s).
Proof.
  intros Hp. unfold handle401Error. destruct (negb (isRefreshing s)).
  - apply Parked_setStage; [by apply (Parked_ext s) | done].
  - destruct (refreshTokenSubject s); [by apply Parked_continueWaiter |].
    intros id0 r0 E. simpl. apply elem_of_app.
    destruct (decide (id = id0)) as [->|Hne]; [right; by apply list_elem_of_singleton |].
    left. rewrite inflight_setStage_ne in E by done. exact (Hp id0 r0 E).
Qed.

(** After a value has been published nothing is parked any more. *)
Lemma next_releases_all token s id0 :
  Parked s -> notWaiting id0 (next token s).
Proof.
  intros Hp r0 E.
  destruct (inflight s !! id0) as [[r st]|] eqn:E0.
  - assert (Hcase : st = AwaitingRefreshedToken \/ notWaiting id0 s).
    { destruct st; try (right; intros r'; rewrite E0; discriminate). by left. }
    destruct Hcase as [->|Hnw].
    + destruct (wake_waiter token (observers s) (setSubject (Some token) [] s)
                  id0 r (Hp id0 r E0) E0) as [Hi _].
      change (inflight (next token s) !! id0 = Some (mkPending r (released token r)))
        in Hi.
      rewrite Hi in E. unfold released in E. destruct (truthy token); discriminate.
    + destruct (next_frame token s id0 Hnw) as [Hi _].
      rewrite Hi in E. exact (Hnw r0 E).
  - assert (Hnw : notWaiting id0 s) by (intros r'; rewrite E0; discriminate).
    destruct (next_frame token s id0 Hnw) as [Hi _]. congruence.
Qed.

Lemma Parked_step (s : State) (ev : Event) : Parked s -> Parked (step s ev).
Proof.
  intros Hp. destruct ev as [id r a | id t | id o | id t]; simpl.
  - unfold onIntercept. destruct (inflight s !! id); [done |].
    destruct (shouldExcludeUrl (url r)); [| destruct (isAuthenticated a)];
      (apply Parked_setStage; [by apply (Parked_ext s) | done]).
  - unfold onAccessToken. destruct (inflight s !! id) as [[r st]|]; [| done].
    destruct st; try done.
    destruct t as [[token|]|e];
      (apply Parked_setStage; [by apply (Parked_ext s) | done]).
  - unfold onResponse. destruct (inflight s !! id) as [[r st]|]; [| done].
    destruct st as [|[|]| | |[|]|]; try done.
    + destruct (is401 o); [by apply Parked_handle401Error |].
      by apply Parked_setStage.
    + by apply Parked_setStage.
    + destruct o;
        (eapply Parked_ext; [| | apply Parked_setStage; [exact Hp | ]]; done).
    + by apply Parked_setStage.
  - unfold onRefreshed. destruct (inflight s !! id) as [[r st]|] eqn:E; [| done].
    destruct st; try done. destruct t as [tok|e].
    + assert (Hnone : forall id0, notWaiting id0 (next (default "" tok)
                                                  (setRefreshing false s))).
      { intros id0. apply next_releases_all. by apply (Parked_ext s). }
      intros id0 r0 E0. exfalso.
      destruct (decide (id = id0)) as [->|Hne].
      * destruct (truthy (default "" tok)); simpl in E0;
          rewrite lookup_insert_eq in E0; discriminate.
      * destruct (truthy (default "" tok)); simpl in E0;
          rewrite lookup_insert_ne in E0 by done; by destruct (Hnone id0 r0).
    + eapply Parked_ext; [| | apply Parked_setStage; [exact Hp | ]]; done.
Qed.

Lemma Parked_run (evs : list Event) (s : State) : Parked s -> Parked (run s evs).
Proof.
  revert s. induction evs as [|ev evs IH]; intros s H; simpl; [done |].
  by apply IH, Parked_step.
Qed.

(** A refresh that rejects tells the leader only: a parked request stays
    parked, and [refreshTokenSubject] keeps the null it was given. *)
Lemma refresh_rejection_not_shared (s : State) (id id0 : nat) (r r0 : HttpRequest)
    (e : ProviderError) :
  inflight s !! id = Some (mkPending r LeadingRefresh) ->
  inflight s !! id0 = Some (mkPending r0 AwaitingRefreshedToken) ->
  let s' := step s (Refreshed id (Rejected e)) in
  stageOf id s' = Some (Settled_ (Fails (SdkError e)))
  /\ inflight s' !! id0 = Some (mkPending r0 AwaitingRefreshedToken)
  /\ handledFor id0 s' = handledFor id0 s
  /\ refreshTokenSubject s' = refreshTokenSubject s
  /\ isRefreshing s' = false.
Proof.
  intros E E0. cbn [step]. unfold onRefreshed, stageOf. rewrite E.
  assert (Hne : id <> id0) by (intros ->; congruence).
  simpl. rewrite lookup_insert_eq, lookup_insert_ne by done. by split_and!.
Qed.

(** With nothing refreshing and every request settled or parked, only a
    new request can make anything happen. *)
Lemma quiescent_stuck (s : State) (ev : Event) :
  Quiescent s -> isIntercept ev = true \/ step s ev = s.
Proof.
  intros Hq. destruct ev as [id r a | id t | id o | id t]; [by left | | |];
    right; simpl; unfold onAccessToken, onResponse, onRefreshed;
    destruct (inflight s !! id) as [[r st]|] eqn:E; try done;
    specialize (Hq id _ E); by destruct st.
Qed.

(** C1 (code defect): two requests are answered 401, the second while the
    refresh started for the first is in flight; one [refreshSession()] is
    made.  When it rejects, the first caller gets the failure, but the
    second is never told: it stays parked on [refreshTokenSubject], nothing
    in flight can release it, and it is released only by the token of a
    later, unrelated refresh. *)
Theorem waiter_not_told_of_refresh_failure :
  let s := run initialState Scenario.twoUnauthorizedThenRefreshRejects in
  let s' := run s Scenario.laterRefreshSucceeds in
  refreshSessionCalls s = 1
  /\ stageOf 1 s = Some (Settled_ (Fails (SdkError Scenario.networkError)))
  /\ stageOf 2 s = Some AwaitingRefreshedToken
  /\ isRefreshing s = false
  /\ refreshTokenSubject s = None
  /\ (forall ev, isIntercept ev = true \/ step s ev = s)
  /\ refreshSessionCalls s' = 2
  /\ stageOf 2 s' = Some (Retried false)
  /\ handledFor 2 s' =
       [addAuthHeader Scenario.profileRequest "stale";
        addAuthHeader (addAuthHeader Scenario.profileRequest "stale") "fresh"].
Proof.
  split_and!; try (vm_compute; reflexivity).
  intros ev. apply quiescent_stuck.
  unfold Quiescent. apply (bool_decide_unpack _). vm_compute. exact Logic.I.
Qed.

End AuthInterceptorProofs.

(** * Properties of AuthGuard *)

Module AuthGuardProofs.
Import AuthGuard.

(** C3, as stated, fails: the guard finds nobody signed in, navigates and
    answers [false], but no return URL has been recorded. *)
Lemma canActivate_records_no_returnUrl :
  let r := canActivate Scenario.anonymous initialWorld in
  fst r = Fulfilled false
  /\ navigations (snd r) = [mkNavigation ["/login"] []]
  /\ ~ is_Some (sessionStorage (snd r) !! "returnUrl").
Proof.
  vm_compute. split_and!; try reflexivity. intros [u Hu]. discriminate.
Qed.

(** C3 (amended): when the identity fetch rejects, [canActivate] triggers
    the navigation to the login page and answers [false]; when it resolves,
    [canActivate] answers [true] and navigates nowhere.  In both cases the
    Session record is left as it was, and so is the return-URL slot: the
    guard records no URL. *)
Theorem canActivate_contract (P : Amplify.Provider) (w : World) :
  let r := canActivate P w in
  (forall e, Amplify.getCurrentUser P (clock w) = Rejected e ->
     fst r = Fulfilled false
     /\ navigations (snd r) = (navigations w ++ [mkNavigation ["/login"] []])%list)
  /\ (forall u, Amplify.getCurrentUser P (clock w) = Fulfilled u ->
       fst r = Fulfilled true
       /\ navigations (snd r) = navigations w)
  /\ authStateSignal (snd r) = authStateSignal w
  /\ authStateSubject (snd r) = authStateSubject w
  /\ sessionStorage (snd r) = sessionStorage w.
Proof.
  unfold canActivate, AuthService.checkAuthStatus, navigate,
    tryCatch, bind, exec, sdk, ret; simpl.
  destruct (Amplify.getCurrentUser P (clock w)) as [u|e]; simpl;
    split_and!; try done; intros ? [=].
Qed.

Lemma canActivate_contract_witness :
  fst (canActivate Scenario.signedIn initialWorld) = Fulfilled true
  /\ navigations (snd (canActivate Scenario.signedIn initialWorld)) = [].
Proof.
  apply (canActivate_contract Scenario.signedIn initialWorld) with (u := Scenario.alice).
  reflexivity.
Defined.

End AuthGuardProofs.

(** * The guard and the interceptor together *)

Module TriangleProofs.


End TriangleProofs.

(** * More of AuthService *)

Module AuthServiceMore.
Import AuthService.

Ltac run_service :=
  unfold signOut, signIn, signUp, confirmSignUp, resendConfirmationCode,
    resetPassword, confirmPasswordReset, checkAuthStatus, logout,
    refreshSession, getAccessToken, initializeAuth, checkAuthenticationState,
    clearAuthState, updateAuthState, checkSessionExpiry, getSessionExpiry,
    setupSessionRefresh, clearSessionTimer, handleAuthError,
    handleSignInNextStep, setError, setLoading, setAuthenticated,
    getReturnUrl, setReturnUrl, navigate,
    tryFinally, tryCatch, bind, exec, sdk, ret, throw; simpl.

Lemma TimerInv_delete (w : World) (id : nat) :
  TimerInv w -> sessionRefreshTimer w = Some id ->
  delete id (subscriptions w) = ∅.
Proof.
  intros H Ht. apply map_empty. intros id'.
  destruct (decide (id' = id)) as [->|Hne]; [apply lookup_delete_eq |].
  rewrite lookup_delete_ne by done.
  destruct (subscriptions w !! id') as [sub|] eqn:E; [| done].
  specialize (H id' (ex_intro _ sub E)). congruence.
Qed.

(** ** signIn *)



(** X2: a sign-in the provider leaves at an intermediate step resolves
    without touching the authentication fields, the error, the timer or
    the return-URL slot; it only turns the spinner off and navigates to the
    page of that step (to none for a step it does not know). *)
Theorem signIn_next_step (P : Amplify.Provider) (credentials : SignInInput)
    (w : World) (out : SignInOutput) :
  Amplify.signIn P credentials (clock w) = Fulfilled out ->
  isSignedIn out = false ->
  let w' := snd (signIn P credentials w) in
  fst (signIn P credentials w) = Fulfilled tt
  /\ authStateSubject w' = settledState (authStateSignal w) (error (authStateSignal w))
  /\ authStateSignal w' = authStateSubject w'
  /\ sessionRefreshTimer w' = sessionRefreshTimer w
  /\ subscriptions w' = subscriptions w
  /\ sessionStorage w' = sessionStorage w
  /\ navigations w' =
      (navigations w ++
       match nextStep out with
       | CONFIRM_SIGN_UP => [mkNavigation ["/auth/confirm"] [("step", "signup")]]
       | RESET_PASSWORD => [mkNavigation ["/auth/reset-password"] []]
       | CONFIRM_SIGN_IN_WITH_NEW_PASSWORD_REQUIRED =>
           [mkNavigation ["/auth/new-password"] []]
       | _ => []
       end)%list.
Proof.
  intros Hin Hstep. run_service. rewrite Hin. simpl. rewrite Hstep.
  destruct (nextStep out); simpl; split_and!; try done;
    by rewrite app_nil_r.
Qed.

Lemma signIn_next_step_witness :
  navigations
    (snd (signIn
            {| Amplify.getCurrentUser := fun _ => Rejected Scenario.notSignedIn;
               Amplify.fetchAuthSession := fun _ => Fulfilled (mkAuthSession None);
               Amplify.signOut := fun _ => Fulfilled tt;
               Amplify.signIn := fun _ _ => Fulfilled (mkSignInOutput false CONFIRM_SIGN_UP);
               Amplify.signUp := fun _ _ => Fulfilled (mkSignUpOutput false "CONFIRM_SIGN_UP");
               Amplify.confirmSignUp := fun _ _ _ => Fulfilled tt;
               Amplify.resendSignUpCode := fun _ _ => Fulfilled tt;
               Amplify.resetPassword := fun _ _ => Fulfilled tt;
               Amplify.confirmResetPassword := fun _ _ _ _ => Fulfilled tt |}
            (mkSignInInput "bob" "pw") initialWorld))
  = [mkNavigation ["/auth/confirm"] [("step", "signup")]].
Proof.
  apply (signIn_next_step _ (mkSignInInput "bob" "pw") initialWorld
           (mkSignInOutput false CONFIRM_SIGN_UP)); reflexivity.
Defined.

(** X3: when the provider rejects the sign-in, or completes it but then
    fails to return the identity, [signIn] rejects with that same error.
    The Session keeps its authentication fields and gets the message mapped
    from the error; nothing is navigated, the timer and the return-URL slot
    are left alone. *)
Theorem signIn_rejected (P : Amplify.Provider) (credentials : SignInInput)
    (w : World) (e : ProviderError) :
  Amplify.signIn P credentials (clock w) = Rejected e
  \/ (exists out, Amplify.signIn P credentials (clock w) = Fulfilled out
                  /\ isSignedIn out = true
                  /\ Amplify.getCurrentUser P (S (clock w)) = Rejected e) ->
  let w' := snd (signIn P credentials w) in
  fst (signIn P credentials w) = Rejected e
  /\ authStateSubject w' = settledState (authStateSignal w) (Some (userMessage e))
  /\ authStateSignal w' = authStateSubject w'
  /\ navigations w' = navigations w
  /\ sessionRefreshTimer w' = sessionRefreshTimer w
  /\ subscriptions w' = subscriptions w
  /\ sessionStorage w' = sessionStorage w.
Proof.
  intros [Hin | (out & Hin & Hdone & Hu)]; run_service; rewrite Hin; simpl.
  - by split_and!.
  - rewrite Hdone. simpl. rewrite Hu. simpl. by split_and!.
Qed.

Lemma signIn_rejected_witness :
  fst (signIn Scenario.anonymous (mkSignInInput "alice" "bad") initialWorld)
  = Rejected Scenario.notSignedIn.
Proof.
  apply (signIn_rejected Scenario.anonymous (mkSignInInput "alice" "bad")
           initialWorld Scenario.notSignedIn).
  left. reflexivity.
Defined.

(** ** The spinner *)



(** ** refreshSession *)

Lemma refreshSession_rejected (P : Amplify.Provider) (w : World) (e : ProviderError) :
  fst (refreshSession P w) = Rejected e ->
  authStateSubject (snd (refreshSession P w))
  = signedOutState (isLoading (authStateSignal w))
  /\ authStateSignal (snd (refreshSession P w))
     = signedOutState (isLoading (authStateSignal w)).
Proof.
  run_service.
  destruct (Amplify.fetchAuthSession P (clock w)) as [session|e0]; simpl; [| done].
  destruct (tokens session) as [t|]; simpl; [| done].
  destruct (Amplify.getCurrentUser P (S (clock w))) as [u|e1]; simpl; [| done].
  destruct (Amplify.fetchAuthSession P (S (S (clock w)))); simpl;
    by destruct (Amplify.fetchAuthSession P (S (S (S (clock w))))).
Qed.


(** ** getAccessToken *)

(** X6: [getAccessToken] never rejects, costs one SDK call and changes
    nothing else; a token it returns is never the empty string, and it
    returns none when the session fetch rejects or carries no tokens. *)
Theorem getAccessToken_contract (P : Amplify.Provider) (w : World) :
  exists t,
    getAccessToken P w = (Fulfilled t, with_clock (S (clock w)) w)
    /\ (forall token, t = Some token -> token <> "")
    /\ (forall e, Amplify.fetchAuthSession P (clock w) = Rejected e -> t = None)
    /\ (forall session, Amplify.fetchAuthSession P (clock w) = Fulfilled session ->
          tokens session = None -> t = None).
Proof.
  run_service.
  destruct (Amplify.fetchAuthSession P (clock w)) as [session|e]; simpl.
  - exists (tokenOf session). split_and!; try done.
    + intros token Htok ->. unfold tokenOf in Htok.
      destruct (tokens session) as [t|]; [| done].
      destruct (accessToken t) as [jwt|]; [| done].
      destruct (truthy (jwt_toString jwt)) eqn:E; [| done].
      injection Htok as Htok. by rewrite Htok in E.
    + intros session' [= <-] Ht. unfold tokenOf. by rewrite Ht.
  - exists None. by split_and!.
Qed.

(** ** logout *)

(** X7: [logout] never rejects: whether the remote sign-out succeeds or
    fails, the legacy subjects become (false, null) and "/landing" is
    navigated to.  It does not touch the Session record and does not cancel
    the refresh timer. *)
Theorem logout_always_local (P : Amplify.Provider) (w : World) :
  let w' := snd (logout P w) in
  fst (logout P w) = Fulfilled tt
  /\ isAuthenticatedSubject w' = false
  /\ currentUserSubject w' = None
  /\ navigations w' = (navigations w ++ [mkNavigation ["/landing"] []])%list
  /\ authStateSignal w' = authStateSignal w
  /\ authStateSubject w' = authStateSubject w
  /\ sessionRefreshTimer w' = sessionRefreshTimer w
  /\ subscriptions w' = subscriptions w.
Proof.
  run_service. by destruct (Amplify.signOut P (clock w)).
Qed.

(** ** The start-up check and the manual check *)


(** X9: [checkAuthenticationState] never rejects and makes the Session
    follow the provider: authenticated with the identity when the fetch
    resolves, unauthenticated without user or expiry when it rejects; in
    both cases without error and with the spinner as it was.  The legacy
    subjects are not written. *)
Theorem checkAuthenticationState_contract (P : Amplify.Provider) (w : World) :
  let w' := snd (checkAuthenticationState P w) in
  let a' := authStateSubject w' in
  fst (checkAuthenticationState P w) = Fulfilled tt
  /\ authStateSignal w' = a'
  /\ error a' = None
  /\ isLoading a' = isLoading (authStateSignal w)
  /\ match Amplify.getCurrentUser P (clock w) with
     | Fulfilled u => isAuthenticated a' = true /\ user a' = Some u
     | Rejected _ => a' = signedOutState (isLoading (authStateSignal w))
     end
  /\ isAuthenticatedSubject w' = isAuthenticatedSubject w
  /\ currentUserSubject w' = currentUserSubject w.
Proof.
  run_service.
  destruct (Amplify.getCurrentUser P (clock w)) as [u|e]; simpl; [| done].
  destruct (Amplify.fetchAuthSession P (S (clock w))); simpl;
    by destruct (Amplify.fetchAuthSession P (S (S (clock w)))).
Qed.

(** ** Invariants of everything the service does *)

Section OperationInvariant.
Variable I : World -> Prop.
Variable P : Amplify.Provider.
Hypothesis I_legacy : forall b u w, I w -> I (with_legacy b u w).
Hypothesis I_publish : forall a w, I w -> I (publish a w).
Hypothesis I_clock : forall n w, I w -> I (with_clock n w).
Hypothesis I_navigations : forall l w, I w -> I (with_navigations l w).
Hypothesis I_now : forall t w, I w -> I (with_now t w).
Hypothesis I_isInitialized : forall b w, I w -> I (with_isInitialized b w).
Hypothesis I_timer : forall t subs k w, I w -> I (with_timer t subs k w).
Hypothesis I_getReturnUrl : Preserves I getReturnUrl.
Hypothesis I_setReturnUrl : forall url, Preserves I (setReturnUrl url).

Lemma I_setLoadingNow b w : I w -> I (setLoadingNow b w).
Proof. apply I_publish. Qed.

Lemma I_setError msg : Preserves I (setError msg).
Proof. apply AuthServiceProofs.preserves_exec. intros w. apply I_publish. Qed.

Lemma I_clearSessionTimer : Preserves I clearSessionTimer.
Proof.
  apply AuthServiceProofs.preserves_exec. intros w H.
  destruct (sessionRefreshTimer w); [by apply I_timer | done].
Qed.

Lemma I_setupSessionRefresh : Preserves I setupSessionRefresh.
Proof.
  apply AuthServiceProofs.preserves_bind; [apply I_clearSessionTimer |].
  intros ?. apply AuthServiceProofs.preserves_exec. intros w. apply I_timer.
Qed.

Lemma I_handleSignInNextStep step : Preserves I (handleSignInNextStep step).
Proof.
  destruct step; simpl;
    first [by apply AuthServiceProofs.preserves_navigate
          | apply AuthServiceProofs.preserves_ret].
Qed.

Lemma I_getSessionExpiry : Preserves I (getSessionExpiry P).
Proof.
  unfold getSessionExpiry.
  apply AuthServiceProofs.preserves_tryCatch;
    [| intros ?; apply AuthServiceProofs.preserves_ret].
  apply AuthServiceProofs.preserves_bind; [by apply AuthServiceProofs.preserves_sdk |].
  intros ?. apply AuthServiceProofs.preserves_ret.
Qed.

Lemma I_updateAuthState b u : Preserves I (updateAuthState P b u).
Proof.
  intros w H. unfold updateAuthState.
  apply (AuthServiceProofs.preserves_bind I); [| | exact H].
  - destruct b; [apply I_getSessionExpiry | apply AuthServiceProofs.preserves_ret].
  - intros expiry. apply AuthServiceProofs.preserves_exec. intros w1. apply I_publish.
Qed.

Lemma I_checkSessionExpiry : Preserves I (checkSessionExpiry P).
Proof.
  unfold checkSessionExpiry.
  apply AuthServiceProofs.preserves_tryCatch;
    [| intros ?; apply AuthServiceProofs.preserves_ret].
  apply AuthServiceProofs.preserves_bind; [apply I_getSessionExpiry |].
  intros ?. apply AuthServiceProofs.preserves_ret.
Qed.

(** One step through the structure of a method. *)
Ltac combinator :=
  lazymatch goal with
  | |- Preserves _ (ret _) => apply AuthServiceProofs.preserves_ret
  | |- Preserves _ (throw _) => apply AuthServiceProofs.preserves_throw
  | |- Preserves _ (tryFinally _ _) => apply AuthServiceProofs.preserves_tryFinally
  | |- Preserves _ (tryCatch _ _) => apply AuthServiceProofs.preserves_tryCatch
  | |- Preserves _ (bind _ _) => apply AuthServiceProofs.preserves_bind
  | |- Preserves _ (match tokens ?session with _ => _ end) =>
      destruct (tokens session)
  | |- Preserves _ (if _ then _ else _) => apply AuthServiceProofs.preserves_if
  | |- Preserves _ (sdk _) => apply AuthServiceProofs.preserves_sdk; exact I_clock
  | |- Preserves _ (navigate _ _) =>
      apply AuthServiceProofs.preserves_navigate; exact I_navigations
  | |- Preserves _ (setError _) => apply I_setError
  | |- Preserves _ (handleAuthError _ _) => apply I_setError
  | |- Preserves _ (setLoading _) =>
      apply AuthServiceProofs.preserves_exec; intros ?; apply I_setLoadingNow
  | |- Preserves _ clearSessionTimer => apply I_clearSessionTimer
  | |- Preserves _ setupSessionRefresh => apply I_setupSessionRefresh
  | |- Preserves _ (handleSignInNextStep _) => apply I_handleSignInNextStep
  | |- Preserves _ getReturnUrl => apply I_getReturnUrl
  | |- Preserves _ (setReturnUrl _) => apply I_setReturnUrl
  | |- Preserves _ (updateAuthState _ _ _) => apply I_updateAuthState
  | |- Preserves _ (checkSessionExpiry _) => apply I_checkSessionExpiry
  | |- Preserves _ (getSessionExpiry _) => apply I_getSessionExpiry
  | |- Preserves _ (exec (with_legacy _ _)) =>
      apply AuthServiceProofs.preserves_exec; intros ?; apply I_legacy
  | |- forall _, Preserves _ _ => intros ?; cbv beta
  | |- forall w, _ -> _ (setLoadingNow _ w) => intros ?; apply I_setLoadingNow
  end.

Ltac combinators := repeat combinator.

Lemma I_refreshSession : Preserves I (refreshSession P).
Proof. unfold refreshSession. combinators. Qed.

Lemma I_signOut : Preserves I (signOut P).
Proof. unfold signOut. combinators. Qed.

Lemma I_signIn c : Preserves I (signIn P c).
Proof. unfold signIn. combinators. Qed.

Lemma I_initializeAuth : Preserves I (initializeAuth P).
Proof.
  unfold initializeAuth. combinators.
  intros w1 H1. by apply I_isInitialized, I_setLoadingNow.
Qed.

Lemma I_timerFire id : Preserves I (timerFire P id).
Proof.
  intros w H. unfold timerFire.
  destruct (subscriptions w !! id) as [sub|]; [| exact H].
  destruct (nextDue sub =? now w)%Z; [| exact H].
  unfold onRefreshTimer.
  apply (AuthServiceProofs.preserves_tryCatch I);
    [apply I_refreshSession | intros ?; apply I_signOut | by apply I_timer].
Qed.

Lemma I_runOp (op : Op) (w : World) : I w -> I (runOp P op w).
Proof.
  destruct op; cbn [runOp]; revert w;
    lazymatch goal with
    | |- forall w, ?J w -> ?J (snd (?m w)) => change (Preserves J m)
    end;
    try apply I_refreshSession; try apply I_signOut; try apply I_signIn;
    try apply I_timerFire;
    unfold checkAuthStatus, logout, setAuthenticated, waitForInitialization,
      signUp, confirmSignUp, resendConfirmationCode, resetPassword,
      confirmPasswordReset, getAccessToken, checkAuthenticationState,
      clearAuthState, elapse;
    combinators.
  apply AuthServiceProofs.preserves_exec. intros w. apply I_now.
Qed.

Lemma I_runOps (ops : list Op) (w : World) : I w -> I (runOps P ops w).
Proof. apply AuthServiceProofs.preserves_runOps. apply I_runOp. Qed.

Lemma I_construct : I initialWorld -> I (construct P).
Proof.
  intros H0. unfold construct.
  apply I_setupSessionRefresh, I_initializeAuth.
  by apply (I_runOp CheckAuthStatus).
Qed.

End OperationInvariant.

(** X10: the signal and the subject always hold the same Session: after
    the constructor and after any sequence of operations of the service
    and firings of its timer. *)
Theorem session_copies_agree (P : Amplify.Provider) (ops : list Op) :
  authStateSignal (runOps P ops (construct P))
  = authStateSubject (runOps P ops (construct P)).
Proof.
  change (Agree (runOps P ops (construct P))).
  apply I_runOps; try done.
  - unfold AuthService.getReturnUrl. by intros w H.
  - by intros url w H.
  - apply I_construct; try done.
    + unfold AuthService.getReturnUrl. by intros w H.
    + by intros url w H.
Qed.

(** X11: of the browser's session storage the service only ever touches
    the "returnUrl" key: every other key keeps its value, or its absence,
    through any sequence of operations. *)
Theorem storage_other_keys_untouched (P : Amplify.Provider) (ops : list Op)
    (w : World) (k : string) :
  k <> "returnUrl" ->
  sessionStorage (runOps P ops w) !! k = sessionStorage w !! k.
Proof.
  intros Hk. change (Stored k (sessionStorage w !! k) (runOps P ops w)).
  apply I_runOps; try done.
  - intros w0 H. unfold Stored, getReturnUrl in *. simpl.
    by rewrite lookup_delete_ne.
  - intros url w0 H. unfold Stored, setReturnUrl, exec in *. simpl.
    by rewrite lookup_insert_ne.
Qed.

Lemma storage_other_keys_untouched_witness :
  "theme" <> "returnUrl"
  /\ sessionStorage
       (runOps Scenario.signedIn
          [SetReturnUrl "/auth/profile"; SignIn (mkSignInInput "alice" "pw"); SignOut]
          (with_sessionStorage {[ "theme" := "dark" ]} initialWorld))
       !! "theme" = Some "dark".
Proof.
  split; [discriminate |].
  rewrite (storage_other_keys_untouched Scenario.signedIn _ _ "theme");
    [reflexivity | discriminate].
Defined.

(** ** Forced sign-out *)

(** X12: when the refresh timer fires, the session fetch rejects and the
    remote sign-out then succeeds, the user is signed out for good: the
    Session is the default one, no timer is left subscribed, and "/login"
    is navigated to. *)
Theorem timer_refresh_failure_signs_out (P : Amplify.Provider) (w : World)
    (id : nat) (sub : TimerSubscription) (e : ProviderError) :
  TimerInv w ->
  subscriptions w !! id = Some sub ->
  now w = nextDue sub ->
  Amplify.fetchAuthSession P (clock w) = Rejected e ->
  Amplify.signOut P (S (clock w)) = Fulfilled tt ->
  let w' := snd (timerFire P id w) in
  fst (timerFire P id w) = Fulfilled tt
  /\ authStateSubject w' = defaultAuthState
  /\ authStateSignal w' = defaultAuthState
  /\ sessionRefreshTimer w' = None
  /\ subscriptions w' = ∅
  /\ navigations w' = (navigations w ++ [mkNavigation ["/login"] []])%list.
Proof.
  intros Hinv Hsub Hdue Hfetch Hout.
  assert (Ht : sessionRefreshTimer w = Some id) by (apply Hinv; by eexists).
  unfold timerFire. rewrite Hsub, Hdue, Z.eqb_refl.
  unfold onRefreshTimer. run_service.
  rewrite Hfetch. simpl. rewrite Hout. simpl. rewrite Ht. simpl.
  split_and!; try done.
  rewrite delete_insert_eq. by apply TimerInv_delete.
Qed.

Lemma timer_refresh_failure_signs_out_witness :
  let P := {| Amplify.getCurrentUser := fun _ => Fulfilled Scenario.alice;
              Amplify.fetchAuthSession :=
                fun n => if (n <? 4)%nat then Fulfilled Scenario.liveSession
                         else Rejected Scenario.networkError;
              Amplify.signOut := fun _ => Fulfilled tt;
              Amplify.signIn := fun _ _ => Fulfilled (mkSignInOutput true DONE);
              Amplify.signUp := fun _ _ => Fulfilled (mkSignUpOutput true "DONE");
              Amplify.confirmSignUp := fun _ _ _ => Fulfilled tt;
              Amplify.resendSignUpCode := fun _ _ => Fulfilled tt;
              Amplify.resetPassword := fun _ _ => Fulfilled tt;
              Amplify.confirmResetPassword := fun _ _ _ _ => Fulfilled tt |} in
  isAuthenticated (authStateSubject (construct P)) = true
  /\ authStateSubject (snd (timerFire P 0 (construct P))) = defaultAuthState.
Proof.
  intros P. split; [vm_compute; reflexivity |].
  assert (Hsub : subscriptions (construct P) !! 0 = Some (mkTimerSubscription 0 0))
    by (vm_compute; reflexivity).
  assert (Hdue : now (construct P) = nextDue (mkTimerSubscription 0 0))
    by (vm_compute; reflexivity).
  assert (Hfetch : Amplify.fetchAuthSession P (clock (construct P))
                   = Rejected Scenario.networkError)
    by (vm_compute; reflexivity).
  assert (Hout : Amplify.signOut P (S (clock (construct P))) = Fulfilled tt)
    by reflexivity.
  exact (proj1 (proj2 (timer_refresh_failure_signs_out P (construct P) 0
           (mkTimerSubscription 0 0) Scenario.networkError
           (AuthServiceProofs.tinv_construct P) Hsub Hdue Hfetch Hout))).
Defined.

(** X13: [clearAuthState] never rejects; it publishes the unauthenticated
    Session (the spinner as it was) and leaves no timer subscribed. *)
Theorem clearAuthState_contract (P : Amplify.Provider) (w : World) :
  TimerInv w ->
  let w' := snd (clearAuthState P w) in
  fst (clearAuthState P w) = Fulfilled tt
  /\ authStateSubject w' = signedOutState (isLoading (authStateSignal w))
  /\ authStateSignal w' = authStateSubject w'
  /\ sessionRefreshTimer w' = None
  /\ subscriptions w' = ∅.
Proof.
  intros Hinv. run_service.
  destruct (sessionRefreshTimer w) as [id|] eqn:Et; simpl; split_and!; try done.
  - by apply TimerInv_delete.
  - by apply AuthServiceProofs.TimerInv_none.
Qed.

Lemma clearAuthState_contract_witness :
  TimerInv (construct Scenario.signedIn)
  /\ subscriptions (snd (clearAuthState Scenario.signedIn (construct Scenario.signedIn)))
     = ∅.
Proof.
  split; [apply AuthServiceProofs.tinv_construct |].
  exact (proj2 (proj2 (proj2 (proj2
           (clearAuthState_contract Scenario.signedIn (construct Scenario.signedIn)
              (AuthServiceProofs.tinv_construct Scenario.signedIn)))))).
Defined.

End AuthServiceMore.

(** * Roles *)

Module AuthServiceRolesProofs.
Import AuthServiceRoles.

Example splitComma_two : splitComma "admin,editor" = ["admin"; "editor"].
Proof. reflexivity. Qed.

Example splitComma_empty : splitComma "" = [""].
Proof. reflexivity. Qed.

Example splitComma_trailing : splitComma "admin," = ["admin"; ""].
Proof. reflexivity. Qed.

Lemma splitComma_cons (c : Ascii.ascii) (rest : string) :
  splitComma (String c rest) =
    if String.eqb (String c "") "," then "" :: splitComma rest
    else match splitComma rest with
         | piece :: pieces => String c piece :: pieces
         | [] => [String c ""]
         end.
Proof. reflexivity. Qed.

Lemma splitComma_nonempty (s : string) : splitComma s <> [].
Proof.
  induction s as [|c rest IH]; [done |]. rewrite splitComma_cons.
  destruct (String.eqb (String c "") ","); [done |].
  by destruct (splitComma rest).
Qed.

Lemma joinComma_cons (piece : string) (rest : list string) :
  rest <> [] -> joinComma (piece :: rest) = piece ++ "," ++ joinComma rest.
Proof. by destruct rest. Qed.

Lemma includes_cons (c : Ascii.ascii) (s sub : string) :
  includes (String c s) sub = String.prefix sub (String c s) || includes s sub.
Proof. reflexivity. Qed.

Lemma prefix_comma (c : Ascii.ascii) (s : string) :
  String.eqb (String c "") "," = false -> String.prefix "," (String c s) = false.
Proof.
  intros Hc. cbn [String.prefix].
  destruct (Ascii.ascii_dec _ c) as [<-|Hne]; [| done].
  by rewrite String.eqb_refl in Hc.
Qed.

(** [split(',')] loses nothing and leaves no comma behind: joining the
    pieces with commas gives the string back, and no piece contains a
    comma. *)
Theorem splitComma_round_trip (s : string) :
  joinComma (splitComma s) = s
  /\ Forall (fun piece => includes piece "," = false) (splitComma s).
Proof.
  induction s as [|c rest [IHjoin IHall]].
  - split; [done |]. by constructor.
  - rewrite splitComma_cons.
    destruct (String.eqb (String c "") ",") eqn:Ec.
    + apply String.eqb_eq in Ec. injection Ec as ->.
      split.
      * rewrite joinComma_cons by apply splitComma_nonempty.
        rewrite IHjoin. reflexivity.
      * by constructor.
    + pose proof (splitComma_nonempty rest) as Hne.
      destruct (splitComma rest) as [|piece pieces]; [done |].
      split.
      * destruct pieces as [|p2 ps].
        -- cbn [joinComma] in *. by rewrite IHjoin.
        -- rewrite joinComma_cons in * by done.
           rewrite <- IHjoin. reflexivity.
      * inversion IHall as [|? ? Hpiece Hrest]; subst. constructor; [| done].
        by rewrite includes_cons, (prefix_comma c piece Ec), Hpiece.
Qed.

Section WithUntypedView.
Variable untyped : AuthUser -> UntypedUser.

(** X14: roles are read from the Session record only.  Without a user in
    the Session no role is held, whatever the list asked for; and the
    legacy sign-in paths ([setAuthenticated], [checkAuthStatus]) do not
    change the roles held.  A role is held when it is among the user's
    groups; the 'custom:roles' attribute cannot grant a role whose name
    contains a comma. *)
Theorem roles_follow_session (P : Amplify.Provider) (w : World) (role : string)
    (roles : list string) (u : AuthUser) :
  (user (authStateSignal w) = None ->
     hasRole untyped role w = false /\ hasAnyRole untyped roles w = false)
  /\ hasRole untyped role (snd (AuthService.setAuthenticated u w))
     = hasRole untyped role w
  /\ hasRole untyped role (snd (AuthService.checkAuthStatus P w))
     = hasRole untyped role w
  /\ (forall v gs, user (authStateSignal w) = Some v ->
        groups (untyped v) = Some gs -> role ∈ gs ->
        hasRole untyped role w = true)
  /\ (forall v, user (authStateSignal w) = Some v ->
        groups (untyped v) = None -> includes role "," = true ->
        hasRole untyped role w = false)
  /\ (hasAnyRole untyped roles w = true <->
      exists r, r ∈ roles /\ hasRole untyped r w = true).
Proof.
  split_and!.
  - intros Hu. unfold hasAnyRole, hasRole, currentUser. rewrite Hu.
    split; [done |]. by induction roles.
  - done.
  - unfold AuthService.checkAuthStatus, tryCatch, bind, exec, sdk, ret; simpl.
    by destruct (Amplify.getCurrentUser P (clock w)).
  - intros v gs Hu Hg Hin. unfold hasRole, currentUser. rewrite Hu, Hg. simpl.
    apply orb_true_intro. left. unfold arrayIncludes.
    apply existsb_exists. exists role. split; [by apply list_elem_of_In |].
    apply String.eqb_refl.
  - intros v Hu Hg Hcomma. unfold hasRole, currentUser. rewrite Hu, Hg. simpl.
    destruct (customRoles (untyped v)) as [attr|]; simpl; [| done].
    destruct (arrayIncludes (splitComma attr) role) eqn:E; [| done].
    apply existsb_exists in E as (piece & Hin & Heq).
    apply String.eqb_eq in Heq as <-.
    destruct (splitComma_round_trip attr) as [_ Hall].
    rewrite Forall_forall in Hall.
    specialize (Hall role (proj2 (list_elem_of_In _ _) Hin)). congruence.
  - unfold hasAnyRole. rewrite existsb_exists. split.
    + intros (r & Hin & Hr). exists r. split; [by apply list_elem_of_In | done].
    + intros (r & Hin & Hr). exists r. split; [by apply list_elem_of_In | done].
Qed.

End WithUntypedView.

Lemma roles_follow_session_witness :
  hasRole (fun _ => mkUntypedUser (Some ["admin"]) None) "admin"
    (AuthService.construct Scenario.signedIn) = true.
Proof.
  destruct (roles_follow_session (fun _ => mkUntypedUser (Some ["admin"]) None)
              Scenario.signedIn (AuthService.construct Scenario.signedIn)
              "admin" [] Scenario.alice) as (_ & _ & _ & Hgroups & _).
  apply (Hgroups Scenario.alice ["admin"]).
  - vm_compute; reflexivity.
  - reflexivity.
  - apply list_elem_of_singleton. reflexivity.
Defined.

End AuthServiceRolesProofs.

(** * More of AuthInterceptor *)

Module AuthInterceptorMore.
Import AuthInterceptor.

(** ** The exclusion list *)

Lemma prefix_spec (sub s : string) :
  String.prefix sub s = true <-> exists b, s = sub ++ b.
Proof.
  revert s. induction sub as [|c sub IH]; intros s.
  - split; [intros _; by exists s | intros _; by destruct s].
  - destruct s as [|c' s]; cbn [String.prefix].
    + split; [done | intros [b Hb]; discriminate].
    + destruct (Ascii.ascii_dec c c') as [<-|Hne].
      * rewrite IH. split; intros [b Hb]; exists b.
        -- simpl. by rewrite Hb.
        -- simpl in Hb. by injection Hb.
      * split; [done |]. intros [b Hb]. simpl in Hb. injection Hb as Hc _.
        by destruct Hne.
Qed.

Lemma includes_spec (s sub : string) :
  includes s sub = true <-> exists a b, s = a ++ sub ++ b.
Proof.
  induction s as [|c rest IH]; cbn [includes].
  - rewrite orb_false_r, prefix_spec. split.
    + intros [b Hb]. by exists "", b.
    + intros (a & b & Hab). destruct a; [by exists b | discriminate].
  - rewrite orb_true_iff, prefix_spec, IH. split.
    + intros [[b Hb] | (a & b & Hab)].
      * by exists "", b.
      * exists (String c a), b. simpl. by rewrite Hab.
    + intros (a & b & Hab). destruct a as [|c' a].
      * left. by exists b.
      * right. exists a, b. simpl in Hab. by injection Hab.
Qed.

(** X15: a URL is excluded from token injection exactly when it contains
    "/auth/", "/public/", "amazonaws.com" or "amplifyapp.com" somewhere. *)
Theorem shouldExcludeUrl_spec (u : string) :
  shouldExcludeUrl u = true <->
  exists fragment before after,
    fragment ∈ ["/auth/"; "/public/"; "amazonaws.com"; "amplifyapp.com"]
    /\ u = before ++ fragment ++ after.
Proof.
  unfold shouldExcludeUrl, excludedUrls. rewrite existsb_exists. split.
  - intros (x & Hin & Hx). apply includes_spec in Hx as (a & b & Hab).
    exists x, a, b. split; [by apply list_elem_of_In | done].
  - intros (x & a & b & Hin & Hab). exists x.
    split; [by apply list_elem_of_In |]. apply includes_spec. by exists a, b.
Qed.

(** X16: a request to an excluded URL, or one made while the Session is
    unauthenticated, is handed to the handler as it came, and whatever the
    handler answers, a 401 included, goes to the caller at once: no
    token is asked for, no refresh is started, nobody is signed out and the
    request is not retried. *)
Theorem unguarded_request_passes_through (s : State) (id : nat) (r : HttpRequest)
    (a : AuthState) (o : Outcome) :
  inflight s !! id = None ->
  shouldExcludeUrl (url r) = true \/ isAuthenticated a = false ->
  let s1 := step s (Intercept id r a) in
  let s2 := step s1 (Response id o) in
  handled s1 = (handled s ++ [(id, r)])%list
  /\ stageOf id s1 = Some (Forwarded false)
  /\ stageOf id s2 = Some (Settled_ o)
  /\ handled s2 = handled s1
  /\ refreshSessionCalls s2 = refreshSessionCalls s
  /\ signOutCalls s2 = signOutCalls s
  /\ isRefreshing s2 = isRefreshing s.
Proof.
  intros Hfresh Hcase. cbn [step]. unfold onIntercept. rewrite Hfresh.
  assert (Hs1 : (if shouldExcludeUrl (url r)
                 then setStage id r (Forwarded false) (handle id r s)
                 else if isAuthenticated a then setStage id r AwaitingToken s
                      else setStage id r (Forwarded false) (handle id r s))
                = setStage id r (Forwarded false) (handle id r s)).
  { destruct Hcase as [-> | ->]; [done |]. by destruct (shouldExcludeUrl (url r)). }
  rewrite Hs1. unfold onResponse, stageOf.
  rewrite AuthInterceptorProofs.inflight_setStage_eq. simpl.
  rewrite !lookup_insert_eq. by split_and!.
Qed.

Lemma unguarded_request_passes_through_witness :
  stageOf 1
    (run initialState
       [Intercept 1 (mkHttpRequest "https://cognito-idp.eu-west-1.amazonaws.com/" ∅)
          Scenario.authenticatedState;
        Response 1 Scenario.unauthorized])
  = Some (Settled_ Scenario.unauthorized).
Proof.
  apply (unguarded_request_passes_through initialState 1
           (mkHttpRequest "https://cognito-idp.eu-west-1.amazonaws.com/" ∅)
           Scenario.authenticatedState Scenario.unauthorized).
  - reflexivity.
  - left. reflexivity.
Defined.

(** ** The refresh flag and the rendezvous slot *)

Lemma next_isRefreshing (token : string) (s : State) :
  isRefreshing (next token s) = isRefreshing s.
Proof.
  destruct (AuthInterceptorProofs.wake_counters token (observers s)
              (setSubject (Some token) [] s)) as (_ & _ & Hr & _).
  exact Hr.
Qed.

Lemma RefreshingNull_step (s : State) (ev : Event) :
  (isRefreshing s = true -> refreshTokenSubject s = None) ->
  isRefreshing (step s ev) = true -> refreshTokenSubject (step s ev) = None.
Proof.
  intros H. destruct ev as [id r a | id t | id o | id t]; simpl.
  - unfold onIntercept. destruct (inflight s !! id); [done |].
    destruct (shouldExcludeUrl (url r)); [| destruct (isAuthenticated a)]; done.
  - unfold onAccessToken. destruct (inflight s !! id) as [[r st]|]; [| done].
    destruct st; try done. by destruct t as [[token|]|e].
  - unfold onResponse. destruct (inflight s !! id) as [[r st]|]; [| done].
    destruct st as [|[|]| | |[|]|]; try done.
    + destruct (is401 o); [| done]. unfold handle401Error.
      destruct (isRefreshing s) eqn:Er; simpl; [| done].
      rewrite (H eq_refl). done.
    + by destruct o.
  - unfold onRefreshed. destruct (inflight s !! id) as [[r st]|]; [| done].
    destruct st; try done. destruct t as [tok|e]; [| done].
    destruct (truthy (default "" tok)); [| done].
    change (isRefreshing (next (default "" tok) (setRefreshing false s)) = true ->
            refreshTokenSubject (next (default "" tok) (setRefreshing false s)) = None).
    rewrite next_isRefreshing. discriminate.
Qed.

(** X17: whatever the events, while [isRefreshing] is set the rendezvous
    slot holds null: a request answered 401 during a refresh always waits
    for that refresh and is never handed a token left over from an earlier
    one. *)
Theorem refreshing_means_null_subject (evs : list Event) :
  let s := run initialState evs in
  isRefreshing s = true -> refreshTokenSubject s = None.
Proof.
  simpl. unfold run.
  assert (Hgen : forall s0,
            (isRefreshing s0 = true -> refreshTokenSubject s0 = None) ->
            isRefreshing (foldl step s0 evs) = true ->
            refreshTokenSubject (foldl step s0 evs) = None).
  { induction evs as [|ev evs IH]; intros s0 H0; simpl; [done |].
    apply IH. by apply RefreshingNull_step. }
  by apply Hgen.
Qed.

Lemma refreshing_means_null_subject_witness :
  isRefreshing (run initialState
                  [Intercept 1 Scenario.todosRequest Scenario.authenticatedState;
                   AccessToken 1 (Fulfilled (Some "stale"));
                   Response 1 Scenario.unauthorized]) = true
  /\ refreshTokenSubject
       (run initialState
          [Intercept 1 Scenario.todosRequest Scenario.authenticatedState;
           AccessToken 1 (Fulfilled (Some "stale"));
           Response 1 Scenario.unauthorized]) = None.
Proof.
  assert (H : isRefreshing
                (run initialState
                   [Intercept 1 Scenario.todosRequest Scenario.authenticatedState;
                    AccessToken 1 (Fulfilled (Some "stale"));
                    Response 1 Scenario.unauthorized]) = true)
    by (vm_compute; reflexivity).
  split; [exact H |].
  exact (refreshing_means_null_subject _ H).
Defined.

(** ** The retried copy *)



(** ** What starts a refresh, and what signs the user out *)

Lemma next_counters (token : string) (s : State) :
  refreshSessionCalls (next token s) = refreshSessionCalls s
  /\ signOutCalls (next token s) = signOutCalls s.
Proof.
  destruct (AuthInterceptorProofs.wake_counters token (observers s)
              (setSubject (Some token) [] s)) as (H1 & H2 & _).
  by split.
Qed.

(** X19: one event starts at most one refresh, and only a 401 answer to a
    request forwarded with the 401 handling, arriving while [isRefreshing]
    is off, starts one; and [signOut()] is called only for the request that
    leads a refresh, when its refresh or its retry fails. *)
Theorem refresh_and_signOut_causes (s : State) (ev : Event) :
  (refreshSessionCalls (step s ev) = refreshSessionCalls s
   \/ (refreshSessionCalls (step s ev) = S (refreshSessionCalls s)
       /\ isRefreshing s = false
       /\ isRefreshing (step s ev) = true
       /\ exists id r o,
            ev = Response id o /\ is401 o = true
            /\ inflight s !! id = Some (mkPending r (Forwarded true))))
  /\ (signOutCalls (step s ev) = signOutCalls s
      \/ exists r e,
           (inflight s !! eventId ev = Some (mkPending r LeadingRefresh)
            \/ inflight s !! eventId ev = Some (mkPending r (Retried true)))
           /\ stageOf (eventId ev) (step s ev) = Some (Settled_ (Fails e))).
Proof.
  destruct ev as [id r a | id t | id o | id t]; simpl.
  - unfold onIntercept. destruct (inflight s !! id); [by split; left |].
    destruct (shouldExcludeUrl (url r)); [| destruct (isAuthenticated a)];
      by split; left.
  - unfold onAccessToken. destruct (inflight s !! id) as [[r st]|]; [| by split; left].
    destruct st; try by split; left.
    destruct t as [[token|]|e]; by split; left.
  - unfold onResponse. destruct (inflight s !! id) as [[r st]|] eqn:E;
      [| by split; left].
    destruct st as [|[|]| | |[|]|]; try by split; left.
    + destruct (is401 o) eqn:E401; [| by split; left].
      unfold handle401Error. destruct (isRefreshing s) eqn:Er; simpl.
      * destruct (refreshTokenSubject s) as [token|]; [| by split; left].
        unfold continueWaiter. destruct (truthy token); by split; left.
      * split; [| by left]. right. split_and!; try done. by exists id, r, o.
    + split; [by destruct o; left |].
      destruct o as [resp|e]; [by left |]. right. exists r, e.
      split; [by right |]. unfold stageOf. simpl. by rewrite lookup_insert_eq.
  - unfold onRefreshed. destruct (inflight s !! id) as [[r st]|] eqn:E;
      [| by split; left].
    destruct st; try by split; left.
    destruct t as [tok|e].
    + destruct (next_counters (default "" tok) (setRefreshing false s)) as [Hr Ho].
      destruct (truthy (default "" tok)).
      * split; left; [exact Hr | exact Ho].
      * split; [left; exact Hr |]. right. exists r, TOKEN_REFRESH_FAILED.
        split; [by left |]. unfold stageOf. simpl. by rewrite lookup_insert_eq.
    + split; [by left |]. right. exists r, (SdkError e).
      split; [by left |]. unfold stageOf. simpl. by rewrite lookup_insert_eq.
Qed.

(** ** One refresh, one value *)

(** X20: in any state the interceptor can reach, when the refresh of the
    leading request settles with a value, every request parked behind it is
    released with that one value: retried once with the new token, or,
    when the token is empty, failed with "Token refresh failed" as the
    leader is; and no further refresh is started. *)
Theorem refresh_value_reaches_every_waiter (evs : list Event) (id id0 : nat)
    (r r0 : HttpRequest) (tok : option string) :
  let s := run initialState evs in
  inflight s !! id = Some (mkPending r LeadingRefresh) ->
  inflight s !! id0 = Some (mkPending r0 AwaitingRefreshedToken) ->
  let token := default "" tok in
  let s' := step s (Refreshed id (Fulfilled tok)) in
  inflight s' !! id0 = Some (mkPending r0 (released token r0))
  /\ handledFor id0 s' = (handledFor id0 s ++ releasedWith token r0)%list
  /\ stageOf id s' = Some (if truthy token then Retried true
                           else Settled_ (Fails TOKEN_REFRESH_FAILED))
  /\ refreshSessionCalls s' = refreshSessionCalls s.
Proof.
  intros s Hlead Hwait.
  apply (AuthInterceptorProofs.refresh_outcome_shared s id id0 r r0 tok);
    [| exact Hlead | exact Hwait].
  apply AuthInterceptorProofs.Parked_run, AuthInterceptorProofs.Parked_initial.
Qed.

Lemma refresh_value_reaches_every_waiter_witness :
  let s := run initialState Scenario.twoUnauthorized in
  inflight s !! 1
  = Some (mkPending (addAuthHeader Scenario.todosRequest "stale") LeadingRefresh)
  /\ inflight s !! 2
     = Some (mkPending (addAuthHeader Scenario.profileRequest "stale")
               AwaitingRefreshedToken)
  /\ inflight (step s (Refreshed 1 (Fulfilled (Some "fresh")))) !! 2
     = Some (mkPending (addAuthHeader Scenario.profileRequest "stale")
               (Retried false)).
Proof.
  assert (H1 : inflight (run initialState Scenario.twoUnauthorized) !! 1
               = Some (mkPending (addAuthHeader Scenario.todosRequest "stale")
                         LeadingRefresh)) by (vm_compute; reflexivity).
  assert (H2 : inflight (run initialState Scenario.twoUnauthorized) !! 2
               = Some (mkPending (addAuthHeader Scenario.profileRequest "stale")
                         AwaitingRefreshedToken)) by (vm_compute; reflexivity).
  split; [exact H1 |]. split; [exact H2 |].
  exact (proj1 (refresh_value_reaches_every_waiter Scenario.twoUnauthorized 1 2
                  _ _ (Some "fresh") H1 H2)).
Defined.

(** X21: the refresh flag is also cleared when the leader's retried request
    ends.  If another request has started a refresh of its own by then, the
    flag goes off while that refresh is in flight, and the next 401 starts
    one more: two refreshes are then in flight at once. *)
Theorem refreshes_can_overlap (s : State) (id1 id2 id3 : nat)
    (r1 r2 r3 : HttpRequest) (o : Outcome) :
  id1 <> id2 -> id1 <> id3 -> id2 <> id3 ->
  inflight s !! id1 = Some (mkPending r1 (Retried true)) ->
  inflight s !! id2 = Some (mkPending r2 LeadingRefresh) ->
  inflight s !! id3 = Some (mkPending r3 (Forwarded true)) ->
  let s' := run s [Response id1 o; Response id3 Scenario.unauthorized] in
  refreshSessionCalls s' = S (refreshSessionCalls s)
  /\ stageOf id2 s' = Some LeadingRefresh
  /\ stageOf id3 s' = Some LeadingRefresh.
Proof.
  intros H12 H13 H23 E1 E2 E3. cbn [run foldl step].
  assert (Hs1 : isRefreshing (onResponse id1 o s) = false
                /\ refreshSessionCalls (onResponse id1 o s) = refreshSessionCalls s
                /\ inflight (onResponse id1 o s) !! id2 = inflight s !! id2
                /\ inflight (onResponse id1 o s) !! id3 = inflight s !! id3).
  { unfold onResponse. rewrite E1. destruct o; simpl;
      rewrite !lookup_insert_ne by done; by split_and!. }
  destruct Hs1 as (Hr & Hc & Hi2 & Hi3).
  remember (onResponse id1 o s) as s1 eqn:Es1. clear Es1.
  rewrite E2 in Hi2. rewrite E3 in Hi3.
  assert (Hs2 : onResponse id3 Scenario.unauthorized s1
                = setStage id3 r3 LeadingRefresh
                    (callRefreshSession
                       (setSubject None (observers s1) (setRefreshing true s1)))).
  { unfold onResponse. rewrite Hi3. cbn [Scenario.unauthorized is401 Z.eqb Pos.eqb].
    unfold handle401Error. by rewrite Hr. }
  rewrite Hs2. unfold stageOf.
  rewrite AuthInterceptorProofs.inflight_setStage_eq.
  rewrite AuthInterceptorProofs.inflight_setStage_ne by done.
  cbn [refreshSessionCalls setStage callRefreshSession setSubject setRefreshing
       inflight].
  rewrite Hi2, Hc. by split_and!.
Qed.

Lemma refreshes_can_overlap_witness :
  let s := run initialState Scenario.retryAndRefreshInFlight in
  refreshSessionCalls s = 2
  /\ refreshSessionCalls
       (run s [Response 1 (Emits (mkHttpResponse 200 "[]"));
               Response 3 Scenario.unauthorized]) = 3.
Proof.
  split; [vm_compute; reflexivity |].
  assert (E1 : inflight (run initialState Scenario.retryAndRefreshInFlight) !! 1
               = Some (mkPending (addAuthHeader Scenario.todosRequest "stale")
                         (Retried true))) by (vm_compute; reflexivity).
  assert (E2 : inflight (run initialState Scenario.retryAndRefreshInFlight) !! 2
               = Some (mkPending (addAuthHeader Scenario.profileRequest "stale")
                         LeadingRefresh)) by (vm_compute; reflexivity).
  assert (E3 : inflight (run initialState Scenario.retryAndRefreshInFlight) !! 3
               = Some (mkPending (addAuthHeader Scenario.settingsRequest "stale")
                         (Forwarded true))) by (vm_compute; reflexivity).
  assert (Hc : refreshSessionCalls (run initialState Scenario.retryAndRefreshInFlight)
               = 2) by (vm_compute; reflexivity).
  rewrite (proj1 (refreshes_can_overlap _ 1 2 3 _ _ _
                    (Emits (mkHttpResponse 200 "[]"))
                    ltac:(done) ltac:(done) ltac:(done) E1 E2 E3)).
  by rewrite Hc.
Defined.

End AuthInterceptorMore.

(** * The interceptor against the service *)

Module AuthInterceptorServiceProofs.
Import AuthInterceptor AuthInterceptorService.



Lemma refreshToken_rejected (P : Amplify.Provider) (w : World) (e : ProviderError) :
  fst (refreshToken P w) = Rejected e ->
  fst (AuthService.refreshSession P w) = Rejected e
  /\ snd (refreshToken P w) = snd (AuthService.refreshSession P w).
Proof.
  unfold refreshToken, bind.
  destruct (AuthService.refreshSession P w) as [[[]|e0] w1]; simpl.
  - destruct (AuthInterceptorProofs.getAccessToken_never_rejects P w1) as [t Ht].
    destruct (AuthService.getAccessToken P w1) as [rt w2]. simpl in *.
    rewrite Ht. discriminate.
  - intros [= ->]. done.
Qed.

(** X23: when the refresh the interceptor asks for rejects, the service has
    already published the unauthenticated Session; the interceptor gives
    the rejection to the request that led the refresh, calls [signOut()]
    once, hands nothing more to the handler and clears [isRefreshing]. *)
Theorem interceptor_refresh_failure (P : Amplify.Provider) (w : World)
    (s : State) (id : nat) (r : HttpRequest) (e : ProviderError) :
  inflight s !! id = Some (mkPending r LeadingRefresh) ->
  fst (refreshToken P w) = Rejected e ->
  let w' := snd (refreshToken P w) in
  let s' := step s (Refreshed id (fst (refreshToken P w))) in
  authStateSubject w' = signedOutState (isLoading (authStateSignal w))
  /\ authStateSignal w' = authStateSubject w'
  /\ stageOf id s' = Some (Settled_ (Fails (SdkError e)))
  /\ signOutCalls s' = S (signOutCalls s)
  /\ handled s' = handled s
  /\ isRefreshing s' = false.
Proof.
  intros E Hrej.
  destruct (refreshToken_rejected P w e Hrej) as [Hsession Hworld].
  destruct (AuthServiceMore.refreshSession_rejected P w e Hsession) as [Hsub Hsig].
  cbv zeta. rewrite Hrej, Hworld, Hsub, Hsig.
  cbn [step]. unfold onRefreshed, stageOf. rewrite E. simpl.
  rewrite lookup_insert_eq. by split_and!.
Qed.

Lemma interceptor_refresh_failure_witness :
  let P := {| Amplify.getCurrentUser := fun _ => Fulfilled Scenario.alice;
              Amplify.fetchAuthSession := fun _ => Rejected Scenario.networkError;
              Amplify.signOut := fun _ => Fulfilled tt;
              Amplify.signIn := fun _ _ => Fulfilled (mkSignInOutput true DONE);
              Amplify.signUp := fun _ _ => Fulfilled (mkSignUpOutput true "DONE");
              Amplify.confirmSignUp := fun _ _ _ => Fulfilled tt;
              Amplify.resendSignUpCode := fun _ _ => Fulfilled tt;
              Amplify.resetPassword := fun _ _ => Fulfilled tt;
              Amplify.confirmResetPassword := fun _ _ _ _ => Fulfilled tt |} in
  let s := run initialState
             [Intercept 1 Scenario.todosRequest Scenario.authenticatedState;
              AccessToken 1 (Fulfilled (Some "stale"));
              Response 1 Scenario.unauthorized] in
  signOutCalls (step s (Refreshed 1 (fst (refreshToken P initialWorld)))) = 1.
Proof.
  intros P s.
  assert (E : inflight s !! 1
              = Some (mkPending (addAuthHeader Scenario.todosRequest "stale")
                        LeadingRefresh)) by (vm_compute; reflexivity).
  assert (Hrej : fst (refreshToken P initialWorld) = Rejected Scenario.networkError)
    by (vm_compute; reflexivity).
  exact (proj1 (proj2 (proj2 (proj2
           (interceptor_refresh_failure P initialWorld s 1 _ _ E Hrej))))).
Defined.

End AuthInterceptorServiceProofs.

(** * LoginComponent *)

Module LoginComponentProofs.
Import LoginComponent.

(** X24: [checkCurrentAuthStatus] never rejects.  When the identity fetch
    resolves it marks the component as redirecting, keeps the spinner,
    writes the legacy subjects and navigates to "/auth"; when the fetch
    rejects it only turns the spinner off (unless a redirect had already
    begun).  Either way the Session record, the refresh timer and the
    return-URL storage are not touched. *)
Theorem checkCurrentAuthStatus_contract (P : Amplify.Provider) (c : Fields)
    (w : World) :
  let result := checkCurrentAuthStatus P c w in
  let w' := snd result in
  (exists c', fst result = Fulfilled c'
     /\ match Amplify.getCurrentUser P (clock w) with
        | Fulfilled u =>
            isRedirecting c' = true
            /\ isCheckingAuth c' = isCheckingAuth c
            /\ isAuthenticatedSubject w' = true
            /\ currentUserSubject w' = Some u
            /\ navigations w' = (navigations w ++ [mkNavigation ["/auth"] []])%list
        | Rejected _ =>
            isRedirecting c' = isRedirecting c
            /\ isCheckingAuth c' = (isCheckingAuth c && isRedirecting c)
            /\ isAuthenticatedSubject w' = isAuthenticatedSubject w
            /\ currentUserSubject w' = currentUserSubject w
            /\ navigations w' = navigations w
        end)
  /\ authStateSignal w' = authStateSignal w
  /\ authStateSubject w' = authStateSubject w
  /\ sessionRefreshTimer w' = sessionRefreshTimer w
  /\ subscriptions w' = subscriptions w
  /\ sessionStorage w' = sessionStorage w.
Proof.
  unfold checkCurrentAuthStatus, redirectToDashboard, AuthService.setAuthenticated,
    navigate, tryCatch, bind, exec, sdk, ret; simpl.
  destruct (Amplify.getCurrentUser P (clock w)) as [u|e]; simpl.
  - split_and!; try done. eexists. split; [done |]. by split_and!.
  - destruct c as [checking redirecting]; destruct redirecting; simpl;
      (split_and!; try done; eexists; split; [done |]; split_and!; try done).
    + by rewrite andb_true_r.
    + by rewrite andb_false_r.
Qed.

(** Opened with nobody signed in, the login page shows its form;
    opened with a user signed in, it keeps the spinner and redirects: after
    the start-up check the spinner is on exactly when the redirect is under
    way, and that is exactly when the identity fetch resolved.  The
    authenticator's events do nothing unless the status is
    "authenticated". *)
Theorem login_page_shows_form_or_redirects (P : Amplify.Provider) (w : World)
    (status : string) (u : AuthUser) (c : Fields) :
  (exists c', fst (checkCurrentAuthStatus P initialFields w) = Fulfilled c'
     /\ isCheckingAuth c' = isRedirecting c'
     /\ isRedirecting c' = match Amplify.getCurrentUser P (clock w) with
                           | Fulfilled _ => true
                           | Rejected _ => false
                           end)
  /\ (status <> "authenticated" ->
        onAuthenticatorState status u c w = (Fulfilled c, w))
  /\ onAuthenticatorState "authenticated" u c w
     = (Fulfilled (redirecting c),
        with_navigations (navigations w ++ [mkNavigation ["/auth"] []])
          (with_legacy true (Some u) w)).
Proof.
  split_and!.
  - unfold checkCurrentAuthStatus, redirectToDashboard,
      AuthService.setAuthenticated, navigate, tryCatch, bind, exec, sdk, ret; simpl.
    destruct (Amplify.getCurrentUser P (clock w)); simpl; by eexists.
  - intros Hs. unfold onAuthenticatorState.
    by destruct (String.eqb_spec status "authenticated").
  - reflexivity.
Qed.

Lemma login_page_shows_form_or_redirects_witness :
  onAuthenticatorState "configuring" Scenario.alice initialFields initialWorld
  = (Fulfilled initialFields, initialWorld).
Proof.
  apply (login_page_shows_form_or_redirects Scenario.anonymous initialWorld
           "configuring" Scenario.alice initialFields).
  discriminate.
Defined.

End LoginComponentProofs.

(** * TodosComponent *)

Module TodosComponentProofs.
Import TodosComponent.

Ltac run_todos :=
  unfold runTodosAction, createTodo, deleteTodo, listTodos, call, prompt, alert,
    setTodos, Task.tryCatch, Task.bind, Task.exec, Task.ret; simpl.

Lemma unconfigured_action (D : DataClient) (a : TodosAction) (c : Fields) :
  amplifyConfigured c = false ->
  let c' := snd (runTodosAction D a c) in
  amplifyConfigured c' = false
  /\ clientCalls c' = clientCalls c
  /\ todos c' = todos c
  /\ prompts c' = prompts c
  /\ alerts c' = (alerts c ++ refusedCreates [a])%list.
Proof.
  intros H. destruct a; run_todos; rewrite H; simpl;
    split_and!; try done; by rewrite app_nil_r.
Qed.

(** X25: when [generateClient()] throws, or the client it returns has no
    [Todo] model, the page is not configured, and then nothing the user
    does reaches the backend: no call is made on the data client, no prompt
    is shown, the list stays as it is; each attempt to create raises the
    "not available" alert and nothing else. *)
Theorem unconfigured_page_is_inert (D : DataClient) (generated : Settled Client)
    (actions : list TodosAction) (c0 : Fields) :
  match generated with
  | Fulfilled client => hasModels client && hasTodoModel client = false
  | Rejected _ => True
  end ->
  let c := checkAmplifyConfiguration generated c0 in
  let c' := runTodosActions D actions c in
  amplifyConfigured c = false
  /\ clientCalls c' = clientCalls c0
  /\ todos c' = todos c0
  /\ prompts c' = prompts c0
  /\ alerts c' = (alerts c0 ++ refusedCreates actions)%list.
Proof.
  intros Hgen c.
  assert (Hc : amplifyConfigured c = false
               /\ clientCalls c = clientCalls c0 /\ todos c = todos c0
               /\ prompts c = prompts c0 /\ alerts c = alerts c0).
  { subst c. destruct generated as [client|e]; simpl; [| done]. by rewrite Hgen. }
  destruct Hc as (Hconf & Hcalls & Htodos & Hprompts & Halerts).
  rewrite <- Hcalls, <- Htodos, <- Hprompts, <- Halerts.
  split; [exact Hconf |]. clear Hcalls Htodos Hprompts Halerts Hgen.
  generalize dependent c. clear c0.
  induction actions as [|a actions IH]; intros c Hconf; simpl.
  - split_and!; try done. by rewrite app_nil_r.
  - destruct (unconfigured_action D a c Hconf) as (H1 & H2 & H3 & H4 & H5).
    destruct (IH _ H1) as (G2 & G3 & G4 & G5).
    unfold runTodosActions in *. split_and!; try congruence.
    rewrite G5, H5. rewrite <- app_assoc. f_equal.
    unfold refusedCreates. simpl. by destruct a.
Qed.

Lemma unconfigured_page_is_inert_witness :
  clientCalls
    (runTodosActions (mkDataClient (fun _ => Fulfilled None)
                        (fun _ _ => Fulfilled tt) (fun _ _ => Fulfilled tt))
       [CreateTodo (Some "milk"); DeleteTodo "t-1"; ListTodos]
       (checkAmplifyConfiguration (Fulfilled (mkClient true false)) initialFields))
  = [].
Proof.
  apply (unconfigured_page_is_inert _ (Fulfilled (mkClient true false))
           [CreateTodo (Some "milk"); DeleteTodo "t-1"; ListTodos] initialFields).
  reflexivity.
Defined.


(** X27: on a configured page, a prompt that is cancelled or left empty
    creates nothing: the prompt is shown once, no call is made on the data
    client and the list is not reloaded. *)
Theorem createTodo_needs_content (D : DataClient) (answer : option string)
    (c : Fields) :
  amplifyConfigured c = true ->
  answer = None \/ answer = Some "" ->
  let c' := snd (createTodo D answer c) in
  clientCalls c' = clientCalls c
  /\ prompts c' = S (prompts c)
  /\ todos c' = todos c
  /\ alerts c' = alerts c.
Proof.
  intros Hconf [-> | ->]; run_todos; rewrite Hconf; simpl; by split_and!.
Qed.

Lemma createTodo_needs_content_witness :
  clientCalls
    (snd (createTodo (mkDataClient (fun _ => Fulfilled None)
                        (fun _ _ => Fulfilled tt) (fun _ _ => Fulfilled tt))
            None
            (checkAmplifyConfiguration (Fulfilled (mkClient true true)) initialFields)))
  = [].
Proof.
  apply (createTodo_needs_content _ None
           (checkAmplifyConfiguration (Fulfilled (mkClient true true)) initialFields)).
  - reflexivity.
  - by left.
Defined.

(** X28: on a configured page a create (with content) or a delete makes its
    call, and reloads the list only if that call resolved: then the list
    call follows at once and the page shows its data; if the create or
    delete rejected, no list call is made and the page shows what it showed
    before. *)
Theorem mutation_then_reload (D : DataClient) (text todoId : string) (c : Fields) :
  amplifyConfigured c = true ->
  text <> "" ->
  let n := length (clientCalls c) in
  let created := snd (createTodo D (Some text) c) in
  let deleted := snd (deleteTodo D todoId c) in
  match Todo_create D text n with
  | Fulfilled _ =>
      clientCalls created = (clientCalls c ++ [CreateCall text; ListCall])%list
      /\ todos created = refreshed D (S n) (todos c)
  | Rejected _ =>
      clientCalls created = (clientCalls c ++ [CreateCall text])%list
      /\ todos created = todos c
  end
  /\ match Todo_delete D todoId n with
     | Fulfilled _ =>
         clientCalls deleted = (clientCalls c ++ [DeleteCall todoId; ListCall])%list
         /\ todos deleted = refreshed D (S n) (todos c)
     | Rejected _ =>
         clientCalls deleted = (clientCalls c ++ [DeleteCall todoId])%list
         /\ todos deleted = todos c
     end.
Proof.
  intros Hconf Htext.
  assert (Htruthy : truthy text = true).
  { unfold truthy. by destruct (String.eqb_spec text ""). }
  assert (Hlen : forall x, length (clientCalls c ++ [x]) = S (length (clientCalls c))).
  { intros x. rewrite length_app. simpl. lia. }
  cbv zeta. unfold refreshed. split.
  - run_todos. rewrite Hconf. simpl. rewrite Htruthy. simpl.
    destruct (Todo_create D text (length (clientCalls c))); simpl; [| by split].
    rewrite Hlen.
    destruct (Todo_list D (S (length (clientCalls c)))); simpl;
      (split; [by rewrite <- app_assoc | done]).
  - run_todos. rewrite Hconf. simpl.
    destruct (Todo_delete D todoId (length (clientCalls c))); simpl; [| by split].
    rewrite Hlen.
    destruct (Todo_list D (S (length (clientCalls c)))); simpl;
      (split; [by rewrite <- app_assoc | done]).
Qed.

Lemma mutation_then_reload_witness :
  let D := mkDataClient (fun _ => Fulfilled (Some [mkTodo "t-1" "milk"]))
             (fun _ _ => Fulfilled tt) (fun _ _ => Rejected Scenario.networkError) in
  let c := checkAmplifyConfiguration (Fulfilled (mkClient true true)) initialFields in
  todos (snd (createTodo D (Some "milk") c)) = [mkTodo "t-1" "milk"]
  /\ clientCalls (snd (deleteTodo D "t-1" c)) = [DeleteCall "t-1"].
Proof.
  intros D c.
  destruct (mutation_then_reload D "milk" "t-1" c eq_refl ltac:(discriminate))
    as [[_ Hcreated] [Hdeleted _]].
  split; [exact Hcreated | exact Hdeleted].
Defined.

(** X30: the todos page shows the identity the guard has just seen.  When
    the guard lets the navigation through, the page opened on the world it
    leaves takes that identity as its current user; and when the page is
    configured it loads the list with one call. *)
Theorem todos_page_after_guard (P : Amplify.Provider) (D : DataClient)
    (generated : Settled Client) (c : Fields) (w : World) (u : AuthUser) :
  Amplify.getCurrentUser P (clock w) = Fulfilled u ->
  let guard := AuthGuard.canActivate P w in
  let page := snd (ngOnInit D (snd guard) generated c) in
  fst guard = Fulfilled true
  /\ currentUser page = Some u
  /\ (amplifyConfigured page = true ->
      clientCalls page = (clientCalls c ++ [ListCall])%list
      /\ todos page = refreshed D (length (clientCalls c)) (todos c))
  /\ (amplifyConfigured page = false ->
      clientCalls page = clientCalls c /\ todos page = todos c).
Proof.
  intros Hu. cbv zeta.
  unfold AuthGuard.canActivate, AuthService.checkAuthStatus, navigate,
    tryCatch, bind, exec, sdk, ret. rewrite Hu. simpl.
  unfold ngOnInit, listTodos, checkAmplifyConfiguration, refreshed.
  destruct generated as [client|e]; simpl.
  - destruct (hasModels client && hasTodoModel client) eqn:Econf; simpl.
    + unfold call, setTodos, Task.tryCatch, Task.bind, Task.exec, Task.ret; simpl.
      destruct (Todo_list D (length (clientCalls c))); simpl; by split_and!.
    + by split_and!.
  - by split_and!.
Qed.

Lemma todos_page_after_guard_witness :
  currentUser
    (snd (ngOnInit (mkDataClient (fun _ => Fulfilled None)
                      (fun _ _ => Fulfilled tt) (fun _ _ => Fulfilled tt))
            (snd (AuthGuard.canActivate Scenario.signedIn initialWorld))
            (Fulfilled (mkClient true true)) initialFields))
  = Some Scenario.alice.
Proof.
  apply (todos_page_after_guard Scenario.signedIn _ (Fulfilled (mkClient true true))
           initialFields initialWorld Scenario.alice).
  reflexivity.
Defined.

End TodosComponentProofs.

(** * DashboardComponent *)

Module DashboardComponentProofs.

Lemma isNestedRouteActive_false (routerUrl : string) :
  DashboardComponent.isNestedRouteActive routerUrl = false <->
  routerUrl = "/auth" \/ routerUrl = "/auth/dashboard".
Proof.
  unfold DashboardComponent.isNestedRouteActive.
  destruct (String.eqb_spec routerUrl "/auth") as [->|H1]; simpl.
  - split; [by left | done].
  - destruct (String.eqb_spec routerUrl "/auth/dashboard") as [->|H2]; simpl.
    + split; [by right | done].
    + split; [done | by intros [|]].
Qed.

End DashboardComponentProofs.

(** * The old service inside the new one *)

Module OldAuthServiceProofs.

Lemma legacy_step (P : Amplify.Provider) (op : LegacyOp) (w : World) :
  legacyView (runLegacyNew P op w) = runLegacyOld P op (legacyView w).
Proof.
  destruct op; simpl.
  - unfold AuthService.checkAuthStatus, OldAuthService.checkAuthStatus,
      OldAuthService.sdk, OldAuthService.next, Task.tryCatch, Task.bind,
      Task.exec, Task.ret, tryCatch, bind, exec, sdk, ret; simpl.
    by destruct (Amplify.getCurrentUser P (clock w)).
  - unfold AuthService.logout, OldAuthService.logout, OldAuthService.sdk,
      OldAuthService.next, OldAuthService.navigate, navigate, Task.tryCatch,
      Task.bind, Task.exec, Task.ret, tryCatch, bind, exec, sdk, ret; simpl.
    by destruct (Amplify.signOut P (clock w)).
  - reflexivity.
Qed.

(** X29: on the legacy subjects, the router and the SDK, the three methods
    the new service took over from the old one ([checkAuthStatus],
    [logout], [setAuthenticated]) do exactly what the old service did:
    after any sequence of them the old service's view of the new world is
    the state the old service would be in, and [checkAuthStatus] gives the
    same answer. *)
Theorem new_service_simulates_old (P : Amplify.Provider) (ops : list LegacyOp)
    (w : World) :
  legacyView (foldl (fun w op => runLegacyNew P op w) w ops)
  = foldl (fun c op => runLegacyOld P op c) (legacyView w) ops
  /\ fst (AuthService.checkAuthStatus P w)
     = fst (OldAuthService.checkAuthStatus P (legacyView w))
  /\ legacyView (snd (AuthService.checkAuthStatus P initialWorld))
     = OldAuthService.construct P.
Proof.
  split_and!.
  - revert w. induction ops as [|op ops IH]; intros w; simpl; [done |].
    by rewrite IH, legacy_step.
  - unfold AuthService.checkAuthStatus, OldAuthService.checkAuthStatus,
      OldAuthService.sdk, OldAuthService.next, Task.tryCatch, Task.bind,
      Task.exec, Task.ret, tryCatch, bind, exec, sdk, ret; simpl.
    by destruct (Amplify.getCurrentUser P (clock w)).
  - exact (legacy_step P LegacyCheckAuthStatus initialWorld).
Qed.

End OldAuthServiceProofs.
